(** * The Vasp calculator's setters and writers

  A shallow embedding of [vasp/setters.py] and [vasp/writers.py]: the
  keyword expanders ([set_xc_dict], [set_ispin_dict], [set_rwigs_dict],
  [set_ldau_luj_dict], [set_nsw_dict]), the reconciling [set], and the
  INCAR, KPOINTS and POTCAR writers, followed by the properties
  established about them.

  Python values are a small inductive universe; dictionaries are
  association lists in insertion order; exceptions are an explicit
  result; [self] and the file system are threaded as state.  The
  comparison of the ASE base class, which decides what [set] reports
  as changed, is library code and a parameter of [set]. *)

From Stdlib Require Import ZArith QArith List String Ascii Bool Lia.
From Stdlib Require Import Permutation DecimalString.
Import ListNotations.

Local Open Scope string_scope.
Local Open Scope Z_scope.

(* ================================================================== *)
(** ** Text *)
(* ================================================================== *)

Module Text.

(** The double quote and the backslash, by code point. *)
Definition dquote : ascii := ascii_of_nat 34.
Definition squote : ascii := ascii_of_nat 39.
Definition backslash : ascii := ascii_of_nat 92.
Definition newline : string := String (ascii_of_nat 10) EmptyString.

(** A line of text: [s + '\n']. *)
Definition line (s : string) : string := s ++ newline.

(** [sep.join(parts)]. *)
Fixpoint join (sep : string) (parts : list string) : string :=
  match parts with
  | [] => EmptyString
  | [p] => p
  | p :: rest => p ++ sep ++ join sep rest
  end.

Definition map_chars (f : ascii -> ascii) : string -> string :=
  fix go (s : string) : string :=
    match s with
    | EmptyString => EmptyString
    | String c s' => String (f c) (go s')
    end.

(** [str.upper] and [str.lower] for ASCII text: only the letters a-z and
    A-Z move and every other character is kept.  Python moves letters
    outside ASCII too, so a statement about a text in upper or lower
    case holds for the program where the text [is_ascii]. *)
Definition upper_char (c : ascii) : ascii :=
  let n := nat_of_ascii c in
  if ((97 <=? n) && (n <=? 122))%nat then ascii_of_nat (n - 32) else c.

Definition lower_char (c : ascii) : ascii :=
  let n := nat_of_ascii c in
  if ((65 <=? n) && (n <=? 90))%nat then ascii_of_nat (n + 32) else c.

Definition upper : string -> string := map_chars upper_char.
Definition lower : string -> string := map_chars lower_char.


(** [str(n)] for an [int]. *)
Definition of_Z (n : Z) : string := NilZero.string_of_int (Z.to_int n).

Definition has_char (c : ascii) : string -> bool :=
  fix go (s : string) : bool :=
    match s with
    | EmptyString => false
    | String c' s' => Ascii.eqb c c' || go s'
    end.

Definition hex_digit (n : nat) : ascii :=
  if (n <? 10)%nat then ascii_of_nat (48 + n) else ascii_of_nat (87 + n).

(** One character of [repr(s)] between the quotes [q]. *)
Definition escape_char (q c : ascii) : string :=
  let n := nat_of_ascii c in
  if Ascii.eqb c q || Ascii.eqb c backslash then String backslash (String c EmptyString)
  else if (n =? 9)%nat then String backslash "t"
  else if (n =? 10)%nat then String backslash "n"
  else if (n =? 13)%nat then String backslash "r"
  else if ((n <? 32) || ((127 <=? n) && (n <=? 160)) || (n =? 173))%nat
       then String backslash
              (String "x" (String (hex_digit (n / 16)) (String (hex_digit (n mod 16)) EmptyString)))
  else String c EmptyString.

(** [repr(s)] for a [str]: single quotes, unless the text holds a
    single quote and no double quote. *)
Definition repr (s : string) : string :=
  let q := if has_char squote s && negb (has_char dquote s) then dquote else squote in
  String q ((fix go (t : string) : string :=
               match t with
               | EmptyString => String q EmptyString
               | String c t' => escape_char q c ++ go t'
               end) s).

(** The characters of a string, one string each (iterating a [str]). *)
Fixpoint chars (s : string) : list string :=
  match s with
  | EmptyString => []
  | String c s' => String c EmptyString :: chars s'
  end.

(** [os.path.join(a, b)] on a POSIX system. *)
Definition ends_with_slash : string -> bool :=
  fix go (s : string) : bool :=
    match s with
    | EmptyString => false
    | String c EmptyString => Ascii.eqb c "/"
    | String _ s' => go s'
    end.

Definition path_join (a b : string) : string :=
  match b with
  | String "/" _ => b
  | _ => match a with
         | EmptyString => b
         | _ => if ends_with_slash a then a ++ b else a ++ "/" ++ b
         end
  end.

End Text.

(* ================================================================== *)
(** ** Dictionaries in insertion order *)
(* ================================================================== *)

Module Dict.

(** A Python [dict] with [str] keys: its items in insertion order. *)
Definition t (A : Type) : Type := list (string * A).

Section Ops.
Context {A : Type}.

Fixpoint get (k : string) (d : t A) : option A :=
  match d with
  | [] => None
  | (k', v) :: d' => if String.eqb k k' then Some v else get k d'
  end.

(** [k in d]. *)
Definition mem (k : string) (d : t A) : bool :=
  match get k d with Some _ => true | None => false end.

(** [d[k] = v]: an existing key keeps its place, a new key goes last. *)
Fixpoint set (k : string) (v : A) (d : t A) : t A :=
  match d with
  | [] => [(k, v)]
  | (k', v') :: d' =>
      if String.eqb k k' then (k', v) :: d' else (k', v') :: set k v d'
  end.

(** [d.update(e)]. *)
Fixpoint update (d e : t A) : t A :=
  match e with
  | [] => d
  | (k, v) :: e' => update (set k v d) e'
  end.

Definition keys (d : t A) : list string := map fst d.

(** No key occurs twice: what every Python [dict] satisfies. *)
Fixpoint wf (d : t A) : bool :=
  match d with
  | [] => true
  | (k, _) :: d' => negb (mem k d') && wf d'
  end.

End Ops.

End Dict.

(* ================================================================== *)
(** ** Python values and exceptions *)
(* ================================================================== *)

Set Warnings "-register-all".

Inductive seq_kind : Type := KList | KTuple.

(** The values a parameter may hold.  A [float] carries its exact value
    (used by comparisons) and its [repr] (used when it is printed);
    dictionaries have [str] keys, pairwise distinct. *)
Inductive pyval : Type :=
| VNone
| VBool (b : bool)
| VInt (n : Z)
| VFloat (q : Q) (repr : string)
| VStr (s : string)
| VSeq (k : seq_kind) (items : list pyval)
| VDict (entries : list (string * pyval)).

Inductive exn : Type :=
| KeyError (key : string)
| IndexError
| TypeError (msg : string)
| AttributeError (msg : string)
| ValueError (msg : string)
| Exception (msg : string)
| Unmodelled (what : string).

Inductive result (A : Type) : Type :=
| Ok (a : A)
| Raise (e : exn).

Arguments Ok {A} a.
Arguments Raise {A} e.

Definition rbind {A B : Type} (r : result A) (f : A -> result B) : result B :=
  match r with
  | Ok a => f a
  | Raise e => Raise e
  end.

Notation "'let?' x ':=' r 'in' k" := (rbind r (fun x => k))
  (at level 10, x pattern, r at level 100, k at level 200).

(** A list comprehension whose element expression may raise. *)
Fixpoint rmap {A B : Type} (f : A -> result B) (l : list A) : result (list B) :=
  match l with
  | [] => Ok []
  | x :: l' =>
      let? y := f x in
      let? ys := rmap f l' in
      Ok (y :: ys)
  end.

Definition seq_kind_eqb (a b : seq_kind) : bool :=
  match a, b with
  | KList, KList | KTuple, KTuple => true
  | _, _ => false
  end.

(** The numeric value of a [bool], [int] or [float]. *)
Definition num_of (v : pyval) : option Q :=
  match v with
  | VBool b => Some (if b then 1%Q else 0%Q)
  | VInt n => Some (inject_Z n)
  | VFloat q _ => Some q
  | _ => None
  end.

(** [a == b]. Numbers compare by value across [bool], [int] and [float];
    sequences compare item by item within one kind; dictionaries compare
    as sets of items. *)
Fixpoint py_eq (a b : pyval) {struct a} : bool :=
  match a, b with
  | VNone, VNone => true
  | VBool _, _ | VInt _, _ | VFloat _ _, _ =>
      match num_of a, num_of b with
      | Some x, Some y => Qeq_bool x y
      | _, _ => false
      end
  | VStr s, VStr t => String.eqb s t
  | VSeq k xs, VSeq k' ys =>
      seq_kind_eqb k k' &&
      (fix items (xs ys : list pyval) {struct xs} : bool :=
         match xs, ys with
         | [], [] => true
         | x :: xs', y :: ys' => py_eq x y && items xs' ys'
         | _, _ => false
         end) xs ys
  | VDict es, VDict fs =>
      (List.length es =? List.length fs)%nat &&
      (fix entries (es : list (string * pyval)) : bool :=
         match es with
         | [] => true
         | (k, v) :: es' =>
             existsb (fun e => String.eqb k (fst e) && py_eq v (snd e)) fs
             && entries es'
         end) es
  | _, _ => false
  end.

(** Truth value of [v] in a condition. *)
Definition py_truthy (v : pyval) : bool :=
  match v with
  | VNone => false
  | VBool b => b
  | VInt n => negb (n =? 0)
  | VFloat q _ => negb (Qeq_bool q 0)
  | VStr s => negb (String.eqb s EmptyString)
  | VSeq _ items => match items with [] => false | _ => true end
  | VDict entries => match entries with [] => false | _ => true end
  end.

Definition is_none (v : pyval) : bool :=
  match v with VNone => true | _ => false end.

(** [repr(v)] and [str(v)]. *)
Fixpoint py_repr (v : pyval) : string :=
  match v with
  | VNone => "None"
  | VBool true => "True"
  | VBool false => "False"
  | VInt n => Text.of_Z n
  | VFloat _ r => r
  | VStr s => Text.repr s
  | VSeq KList items => "[" ++ Text.join ", " (map py_repr items) ++ "]"
  | VSeq KTuple items =>
      match items with
      | [x] => "(" ++ py_repr x ++ ",)"
      | _ => "(" ++ Text.join ", " (map py_repr items) ++ ")"
      end
  | VDict entries =>
      "{" ++ Text.join ", "
               (map (fun e => Text.repr (fst e) ++ ": " ++ py_repr (snd e)) entries)
          ++ "}"
  end.

Definition py_str (v : pyval) : string :=
  match v with
  | VStr s => s
  | _ => py_repr v
  end.

(** The name of [type(v)], for error messages. *)
Definition type_name (v : pyval) : string :=
  match v with
  | VNone => "NoneType"
  | VBool _ => "bool"
  | VInt _ => "int"
  | VFloat _ _ => "float"
  | VStr _ => "str"
  | VSeq KList _ => "list"
  | VSeq KTuple _ => "tuple"
  | VDict _ => "dict"
  end.

(** [hasattr(v, '__iter__')]. *)
Definition has_iter (v : pyval) : bool :=
  match v with
  | VStr _ | VSeq _ _ | VDict _ => true
  | _ => false
  end.

(** The items [for x in v] visits: the items of a sequence, the
    characters of a string, the keys of a dictionary. *)
Definition py_iter (v : pyval) : result (list pyval) :=
  match v with
  | VSeq _ items => Ok items
  | VStr s => Ok (map VStr (Text.chars s))
  | VDict entries => Ok (map (fun e => VStr (fst e)) entries)
  | _ => Raise (TypeError (type_name v ++ " object is not iterable"))
  end.

(** [len(v)]. *)
Definition py_len (v : pyval) : result Z :=
  match v with
  | VSeq _ items => Ok (Z.of_nat (List.length items))
  | VStr s => Ok (Z.of_nat (String.length s))
  | VDict entries => Ok (Z.of_nat (List.length entries))
  | _ => Raise (TypeError ("object of type " ++ type_name v ++ " has no len()"))
  end.

(** [l[i]] with Python's negative indices. *)
Definition list_index {A : Type} (l : list A) (i : Z) : result A :=
  let n := Z.of_nat (List.length l) in
  let j := if i <? 0 then i + n else i in
  if (j <? 0) || (n <=? j) then Raise IndexError
  else match nth_error l (Z.to_nat j) with
       | Some x => Ok x
       | None => Raise IndexError
       end.

(** A subscript: a [str] or an [int]. *)
Inductive subscript : Type :=
| SubStr (s : string)
| SubInt (i : Z).

(** [v[key]]. *)
Definition py_getitem (v : pyval) (key : subscript) : result pyval :=
  match v, key with
  | VDict entries, SubStr s =>
      match Dict.get s entries with
      | Some x => Ok x
      | None => Raise (KeyError s)
      end
  | VDict _, SubInt i => Raise (KeyError (Text.of_Z i))
  | VSeq _ items, SubInt i => list_index items i
  | VStr s, SubInt i => list_index (map VStr (Text.chars s)) i
  | VSeq _ _, SubStr _ | VStr _, SubStr _ =>
      Raise (TypeError (type_name v ++ " indices must be integers"))
  | _, _ => Raise (TypeError (type_name v ++ " object is not subscriptable"))
  end.

(** [v > 0], which raises on values that do not order against an [int]. *)
Definition py_gt_zero (v : pyval) : result bool :=
  match num_of v with
  | Some q => Ok (negb (Qle_bool q 0))
  | None => Raise (TypeError ("'>' not supported between instances of "
                              ++ type_name v ++ " and int"))
  end.

(** The store's [p.get(key, None)]. *)
Definition dict_get_or_none (key : string) (d : Dict.t pyval) : pyval :=
  match Dict.get key d with
  | Some v => v
  | None => VNone
  end.

(** The shape of [np.array(v)]: nested sequences of equal lengths give one
    dimension per level, everything else is a scalar.  Rows of unequal
    shape have no array ([None]): numpy refuses them with a [ValueError]. *)
Fixpoint np_shape (v : pyval) : option (list nat) :=
  match v with
  | VSeq _ items =>
      match items with
      | [] => Some [0%nat]
      | x :: rest =>
          match np_shape x with
          | Some sh =>
              if forallb (fun y => match np_shape y with
                                   | Some sh' => if list_eq_dec Nat.eq_dec sh sh' then true else false
                                   | None => false
                                   end) rest
              then Some (List.length items :: sh)
              else None
          | None => None
          end
      end
  | _ => Some []
  end.

(* ================================================================== *)
(** ** State and exceptions *)
(* ================================================================== *)

(** A computation over a state [S] that returns or raises; the state it
    leaves behind is kept in both cases. *)
Definition ST (S A : Type) : Type := S -> S * result A.

Definition ret {S A : Type} (a : A) : ST S A := fun s => (s, Ok a).

Definition bind {S A B : Type} (m : ST S A) (f : A -> ST S B) : ST S B :=
  fun s =>
    match m s with
    | (s', Ok a) => f a s'
    | (s', Raise e) => (s', Raise e)
    end.

Definition lift {S A : Type} (r : result A) : ST S A := fun s => (s, r).

Definition get_state {S : Type} : ST S S := fun s => (s, Ok s).

Definition modify {S : Type} (f : S -> S) : ST S unit := fun s => (f s, Ok tt).

Notation "x <- m ;; k" := (bind m (fun x => k))
  (at level 61, m at next level, right associativity).
Notation "m ;;; k" := (bind m (fun _ => k))
  (at level 61, right associativity).

(** A [for] loop whose body may raise. *)
Fixpoint for_each {S A : Type} (body : A -> ST S unit) (l : list A) : ST S unit :=
  match l with
  | [] => ret tt
  | x :: l' => body x ;;; for_each body l'
  end.

(** A [for] loop that carries a local variable from pass to pass. *)
Fixpoint fold_each {S A B : Type} (body : B -> A -> ST S B) (l : list A) (acc : B)
  : ST S B :=
  match l with
  | [] => ret acc
  | x :: l' => acc <- body acc x ;; fold_each body l' acc
  end.

(* ================================================================== *)
(** ** The calculator object *)
(* ================================================================== *)

Record atom : Type := {
  symbol : string;
  magmom : pyval
}.

(** One entry [x] of [self.ppp_list]; [ppp_key] is [x[0]], a species
    symbol or an atom index. *)
Record ppp_entry : Type := {
  ppp_key : subscript;
  ppp_file : string;
  ppp_count : Z
}.

(** The attributes of [self] the setters and writers read.
    [special_kwargs] and [xc_defaults] are the class attributes of
    [vasp.Vasp]; [ppp_list] is [None] while the attribute is not set;
    [species_order] is the list the structure sorter produces for the
    attached atoms; [results] tells whether cached results are held. *)
Record Vasp : Type := {
  parameters : Dict.t pyval;
  special_kwargs : list string;
  xc_defaults : Dict.t (Dict.t pyval);
  atoms : list atom;
  resort : list Z;
  ppp_list : option (list ppp_entry);
  species_order : list ppp_entry;
  calc_dir : string;
  results : bool
}.

Definition with_parameters (self : Vasp) (p : Dict.t pyval) : Vasp :=
  {| parameters := p;
     special_kwargs := special_kwargs self;
     xc_defaults := xc_defaults self;
     atoms := atoms self;
     resort := resort self;
     ppp_list := ppp_list self;
     species_order := species_order self;
     calc_dir := calc_dir self;
     results := results self |}.

Definition with_ppp_list (self : Vasp) (l : option (list ppp_entry)) : Vasp :=
  {| parameters := parameters self;
     special_kwargs := special_kwargs self;
     xc_defaults := xc_defaults self;
     atoms := atoms self;
     resort := resort self;
     ppp_list := l;
     species_order := species_order self;
     calc_dir := calc_dir self;
     results := results self |}.

Definition with_results (self : Vasp) (b : bool) : Vasp :=
  {| parameters := parameters self;
     special_kwargs := special_kwargs self;
     xc_defaults := xc_defaults self;
     atoms := atoms self;
     resort := resort self;
     ppp_list := ppp_list self;
     species_order := species_order self;
     calc_dir := calc_dir self;
     results := b |}.

(** Modelled from the spec: [sort_atoms] of [vasp.py], the structure
    sorter; it computes the species order of the attached atoms and
    keeps it in [self.ppp_list]. *)
Definition sort_atoms (self : Vasp) : Vasp :=
  with_ppp_list self (Some (species_order self)).

(** Modelled from the spec: [reset] of [vasp.py]; it drops the cached
    derived state, one flag as far as the setters are concerned. *)
Definition reset : ST Vasp unit := modify (fun self => with_results self false).

(** [self.ppp_list], an [AttributeError] while it is not set. *)
Definition get_ppp_list (self : Vasp) : result (list ppp_entry) :=
  match ppp_list self with
  | Some l => Ok l
  | None => Raise (AttributeError "Vasp object has no attribute ppp_list")
  end.

(* ================================================================== *)
(** ** setters.py *)
(* ================================================================== *)

(** [v.lower()] as the setters use it: only a [str] has the method. *)
Definition str_lower (v : pyval) : result string :=
  match v with
  | VStr s => Ok (Text.lower s)
  | _ => Raise (AttributeError (type_name v ++ " object has no attribute lower"))
  end.

(** [vasp.Vasp.xc_defaults[name]]. *)
Definition xc_entry (self : Vasp) (name : string) : result (Dict.t pyval) :=
  match Dict.get name (xc_defaults self) with
  | Some e => Ok e
  | None => Raise (KeyError name)
  end.

(** [for key in keys: if key in self.parameters: d[key] = None]. *)
Definition mark_removed (self : Vasp) (keys : list string) (d : Dict.t pyval)
  : Dict.t pyval :=
  fold_left
    (fun d key => if Dict.mem key (parameters self) then Dict.set key VNone d else d)
    keys d.

Definition set_xc_dict (self : Vasp) (val : pyval) : result (Dict.t pyval) :=
  let d := [("xc", val)] in
  let oxc := dict_get_or_none "xc" (parameters self) in
  let? d :=
    if py_truthy oxc then
      let? name := str_lower oxc in
      let? old := xc_entry self name in
      Ok (mark_removed self (Dict.keys old) d)
    else Ok d in
  let? name := str_lower val in
  let? new := xc_entry self name in
  Ok (Dict.update d new).

(** [[atom.magmom for atom in self.atoms[self.resort]]]. *)
Definition resorted_magmoms (self : Vasp) : result (list pyval) :=
  rmap (fun i => let? a := list_index (atoms self) i in Ok (magmom a)) (resort self).

(** The function returns [None] (here [Ok None]) when no branch is taken. *)
Definition set_ispin_dict (self : Vasp) (val : pyval) : result (option (Dict.t pyval)) :=
  let p := parameters self in
  if is_none val then
    Ok (Some (mark_removed self ["ispin"; "magmom"; "lorbit"] []))
  else if py_eq val (VInt 1) then
    let d := [("ispin", VInt 1)] in
    let d := if Dict.mem "magmom" p then Dict.set "magmom" VNone d else d in
    let d := if Dict.mem "lorbit" p then Dict.set "lorbit" VNone d else d in
    Ok (Some d)
  else if py_eq val (VInt 2) then
    let d := [("ispin", VInt 2)] in
    let? d :=
      if negb (Dict.mem "magmom" p) then
        let? ms := resorted_magmoms self in
        Ok (Dict.set "magmom" (VSeq KList ms) d)
      else Ok d in
    let d := if negb (Dict.mem "lorbit" p) then Dict.set "lorbit" (VInt 11) d else d in
    Ok (Some d)
  else Ok None.

Definition set_rwigs_dict (self : Vasp) (val : pyval) : result (Dict.t pyval) :=
  if is_none val then
    Ok [("rwigs", VNone); ("lorbit", VNone)]
  else
    let? ppp := get_ppp_list self in
    let? rs := rmap (fun x => py_getitem val (ppp_key x)) ppp in
    Ok [("rwigs", VSeq KList rs)].

(** [x[0] if isinstance(x[0], str) else self.atoms[x[0]].symbol]. *)
Definition atom_type (self : Vasp) (x : ppp_entry) : result string :=
  match ppp_key x with
  | SubStr s => Ok s
  | SubInt i => let? a := list_index (atoms self) i in Ok (symbol a)
  end.

(** [[val[sym][field] for sym in atom_types]]. *)
Definition luj_column (val : pyval) (field : string) (atom_types : list string)
  : result pyval :=
  let? col := rmap (fun sym => let? row := py_getitem val (SubStr sym) in
                               py_getitem row (SubStr field)) atom_types in
  Ok (VSeq KList col).

Definition set_ldau_luj_dict (val : pyval) : ST Vasp (Dict.t pyval) :=
  self <- get_state ;;
  if Dict.mem "setups" (parameters self) then
    lift (Raise (Exception "setups and ldau_luj is not supported."))
  else
    (match ppp_list self with
     | None => modify sort_atoms
     | Some _ => ret tt
     end) ;;;
    self <- get_state ;;
    if negb (is_none val) then
      ppp <- lift (get_ppp_list self) ;;
      atom_types <- lift (rmap (atom_type self) ppp) ;;
      l <- lift (luj_column val "L" atom_types) ;;
      u <- lift (luj_column val "U" atom_types) ;;
      j <- lift (luj_column val "J" atom_types) ;;
      ret [("ldaul", l); ("ldauu", u); ("ldauj", j)]
    else
      ret [("ldaul", VNone); ("ldauu", VNone); ("ldauj", VNone)].

Definition set_nsw_dict (val : pyval) : result (Dict.t pyval) :=
  let d := [("nsw", val)] in
  let? positive := py_gt_zero val in
  if positive then Ok (Dict.set "lwave" (VBool true) d)
  else if py_eq val (VInt 0) then Ok (Dict.set "lwave" (VBool false) d)
  else Ok (Dict.set "lwave" (VBool false) d).

(** [kwargs.update(d)] where [d] is what an expander returned. *)
Definition kwargs_update (kwargs : Dict.t pyval) (d : option (Dict.t pyval))
  : result (Dict.t pyval) :=
  match d with
  | Some d => Ok (Dict.update kwargs d)
  | None => Raise (TypeError "NoneType object is not iterable")
  end.

(** [equal(value, oldvalue)] of [ase.calculators.calculator], the
    comparison the base class decides a change with.  It is code of the
    ASE library, which compares through numpy, and is taken as a
    parameter: a function of the two values that gives a truth value or
    raises. *)
Definition comparison : Type := pyval -> pyval -> result bool.

(** The body of the loop of ASE's [Calculator.set]:
    [if key not in self.parameters or not equal(value, oldvalue)] the
    pair is recorded in [changed_parameters] and stored in
    [self.parameters].  The comparison runs only for a key of the
    store; when it raises, the pairs stored so far stay stored. *)
Definition set_parameter (equal : comparison) (changed_parameters : Dict.t pyval)
  (item : string * pyval) : ST Vasp (Dict.t pyval) :=
  let '(key, value) := item in
  self <- get_state ;;
  let oldvalue := dict_get_or_none key (parameters self) in
  differs <- (if negb (Dict.mem key (parameters self)) then ret true
              else same <- lift (equal value oldvalue) ;; ret (negb same)) ;;
  if differs then
    modify (fun self => with_parameters self (Dict.set key value (parameters self))) ;;;
    ret (Dict.set key value changed_parameters)
  else ret changed_parameters.

(** [FileIOCalculator.set(self, **kwargs)], the base class method of the
    ASE library: it stores every changed pair, a [None] value included,
    key by key, and returns the dictionary of the changed pairs.  The
    store keeps a [None] value until the INCAR is written, where
    [write_incar] skips it ("It is how we delete tags").  The
    [parameters] keyword of the method (parameters read from a file) is
    left out of the model. *)
Definition FileIOCalculator_set (equal : comparison) (kwargs : Dict.t pyval)
  : ST Vasp (Dict.t pyval) :=
  if Dict.mem "parameters" kwargs then
    lift (Raise (Unmodelled "parameters read from a file"))
  else
    fold_each (set_parameter equal) kwargs [].

(** The expansion of one special keyword: [if key in kwargs:
    kwargs.update(expander(kwargs[key]))]. *)
Definition expand (key : string) (expander : pyval -> ST Vasp (option (Dict.t pyval)))
  (kwargs : Dict.t pyval) : ST Vasp (Dict.t pyval) :=
  match Dict.get key kwargs with
  | Some val => d <- expander val ;; lift (kwargs_update kwargs d)
  | None => ret kwargs
  end.

(** The four expanders as [set] calls them, as methods of [self]. *)
Definition call_set_xc_dict (val : pyval) : ST Vasp (option (Dict.t pyval)) :=
  self <- get_state ;; d <- lift (set_xc_dict self val) ;; ret (Some d).

Definition call_set_ispin_dict (val : pyval) : ST Vasp (option (Dict.t pyval)) :=
  self <- get_state ;; lift (set_ispin_dict self val).

Definition call_set_ldau_luj_dict (val : pyval) : ST Vasp (option (Dict.t pyval)) :=
  d <- set_ldau_luj_dict val ;; ret (Some d).

Definition call_set_nsw_dict (val : pyval) : ST Vasp (option (Dict.t pyval)) :=
  d <- lift (set_nsw_dict val) ;; ret (Some d).

Definition set (equal : comparison) (kwargs : Dict.t pyval) : ST Vasp (Dict.t pyval) :=
  kwargs <- expand "xc" call_set_xc_dict kwargs ;;
  kwargs <- expand "ispin" call_set_ispin_dict kwargs ;;
  kwargs <- expand "ldau_luj" call_set_ldau_luj_dict kwargs ;;
  kwargs <- expand "nsw" call_set_nsw_dict kwargs ;;
  changed_parameters <- FileIOCalculator_set equal kwargs ;;
  match changed_parameters with
  | [] => ret changed_parameters
  | _ => reset ;;; ret changed_parameters
  end.

(* ================================================================== *)
(** ** Files and sets *)
(* ================================================================== *)

(** The files on disk: path to content. *)
Definition files : Type := Dict.t string.

(** [with open(path, 'w') as f: body]: the file is created or emptied,
    and holds what [body] wrote, also when [body] raises. *)
Definition with_open_w (path : string) (body : ST string unit) : ST files unit :=
  fun fs =>
    let '(text, r) := body EmptyString in
    (Dict.set path text fs, r).

(** [f.write(text)]. *)
Definition f_write (text : string) : ST string unit :=
  modify (fun written => written ++ text).

(** Python leaves the iteration order of a [set] of strings to the hash
    of the running interpreter and to the history of the set.  The
    embedding takes the order of the one set that a call builds as a
    ranking [rank] of its strings: that set is visited by increasing
    rank.  The ranking belongs to that set: two stores, or one store
    filled in two orders, may be visited under two rankings. *)
Fixpoint insert_by (rank : string -> nat) (x : string) (l : list string) : list string :=
  match l with
  | [] => [x]
  | y :: l' => if (rank x <=? rank y)%nat then x :: l else y :: insert_by rank x l'
  end.

Fixpoint sort_by (rank : string -> nat) (l : list string) : list string :=
  match l with
  | [] => []
  | x :: l' => insert_by rank x (sort_by rank l')
  end.

(** [list(set(xs) - set(ys))]. *)
Definition set_difference (rank : string -> nat) (xs ys : list string) : list string :=
  sort_by rank
    (nodup string_dec (filter (fun x => negb (existsb (String.eqb x) ys)) xs)).

(** [if fname is None: fname = os.path.join(self.calc_dir, name)]. *)
Definition default_path (dir name : string) (fname : option string) : string :=
  match fname with
  | Some path => path
  | None => Text.path_join dir name
  end.

(** [d[key]]. *)
Definition dict_getitem (key : string) (d : Dict.t pyval) : result pyval :=
  match Dict.get key d with
  | Some v => Ok v
  | None => Raise (KeyError key)
  end.

(* ================================================================== *)
(** ** writers.py *)
(* ================================================================== *)

(** The text an INCAR value is written as; [key] is [' ' + key.upper()]
    and [val] is not [None]. *)
Definition incar_value (self : Vasp) (key : string) (val : pyval) : result string :=
  if String.eqb key " RWIGS" then
    let? ppp := get_ppp_list self in
    let? parts := rmap (fun x => let? r := py_getitem val (ppp_key x) in Ok (py_str r)) ppp in
    Ok (Text.join " " parts)
  else
    match val with
    | VBool b => Ok (if b then ".TRUE." else ".FALSE.")
    | VStr s => Ok s
    | _ =>
        if has_iter val then
          let? xs := py_iter val in
          Ok (Text.join " " (map py_str xs))
        else Ok (py_str val)
    end.

(** The body of the loop over [d.items()]. *)
Definition write_incar_item (self : Vasp) (item : string * pyval) : ST string unit :=
  let '(key, val) := item in
  let key := " " ++ Text.upper key in
  if is_none val then ret tt
  else
    val <- lift (incar_value self key val) ;;
    f_write (Text.line (key ++ " = " ++ val)).

Definition incar_keys (rank : string -> nat) (self : Vasp) : list string :=
  set_difference rank (Dict.keys (parameters self)) (special_kwargs self).

Definition write_incar (rank : string -> nat) (self : Vasp) (incar : option string)
  : ST files unit :=
  let incar := default_path (calc_dir self) "INCAR" incar in
  d <- lift (rmap (fun key => let? val := dict_getitem key (parameters self) in
                              Ok (key, val))
                  (incar_keys rank self)) ;;
  with_open_w incar
    (f_write (Text.line "INCAR created by Atomic Simulation Environment") ;;;
     for_each (write_incar_item self) d).

(** The values [MODE] is compared with. *)
Inductive kmode : Type := Mc | Mk | Mm | Mg | Mr | Ml.

(** [any(len(point) != 4 for point in points)]. *)
Fixpoint any_len_not_4 (points : list pyval) : result bool :=
  match points with
  | [] => Ok false
  | point :: rest =>
      let? n := py_len point in
      if negb (n =? 4) then Ok true else any_len_not_4 rest
  end.

(** ['{}'.format(NKPTS)]. *)
Definition format_nkpts (NKPTS : option Z) : string :=
  match NKPTS with
  | None => "None"
  | Some n => Text.of_Z n
  end.

Definition kpoints_count (p : Dict.t pyval) : result (option Z) :=
  let kpts := dict_get_or_none "kpts" p in
  if is_none kpts then Ok None
  else
    match np_shape kpts with
    | None => Raise (ValueError "the requested array has an inhomogeneous shape")
    | Some shape =>
        if (List.length shape =? 1)%nat then Ok (Some 0)
        else
          let? k := dict_getitem "kpts" p in
          let? n := py_len k in
          Ok (Some n)
    end.

Definition kpoints_mode (p : Dict.t pyval) (NKPTS : option Z) : kmode :=
  if match NKPTS with Some n => n =? 0 | None => false end then
    if py_truthy (dict_get_or_none "gamma" p) then Mg else Mm
  else if negb (is_none (dict_get_or_none "kpts_nintersections" p)) then Ml
  else if py_eq (dict_get_or_none "reciprocal" p) (VBool true) then Mr
  else Mc.

(** The block after the format line: what is appended to [points], with
    the extra line of the line mode. *)
Definition kpoints_points (p : Dict.t pyval) (MODE : kmode) : ST string (list pyval) :=
  match MODE with
  | Mm | Mg =>
      let points := [match Dict.get "kpts" p with
                     | Some v => v
                     | None => VSeq KTuple [VInt 1; VInt 1; VInt 1]
                     end] in
      if py_truthy (dict_get_or_none "gamma" p) then
        g <- lift (dict_getitem "gamma" p) ;;
        ret (points ++ [g])%list
      else
        ret (points ++ [VSeq KList [VStr "0.0"; VStr "0.0"; VStr "0.0"]])%list
  | Mc | Mk | Mr =>
      k <- lift (dict_getitem "kpts" p) ;;
      let points := [k] in
      bad <- lift (any_len_not_4 points) ;;
      if bad then lift (Raise (ValueError "Kpoint ERROR: weights must be provided"))
      else ret points
  | Ml =>
      (if py_truthy (dict_get_or_none "reciprocal" p)
       then f_write (Text.line "Reciprocal")
       else f_write (Text.line "Cartesian")) ;;;
      k <- lift (dict_getitem "kpts" p) ;;
      ret [k]
  end.

(** [text = ' '.join(map(str, point)) + '\n'; f.write(text)]. *)
Definition write_point (point : pyval) : ST string unit :=
  xs <- lift (py_iter point) ;;
  f_write (Text.line (Text.join " " (map py_str xs))).

Definition write_kpoints (self : Vasp) (fname : option string) : ST files unit :=
  let fname := default_path (calc_dir self) "KPOINTS" fname in
  let p := parameters self in
  NKPTS <- lift (kpoints_count p) ;;
  let MODE := kpoints_mode p NKPTS in
  with_open_w fname
    (f_write (Text.line "KPOINTS created by Atomic Simulation Environment") ;;;
     match MODE with
     | Mc | Mk | Mm | Mg | Mr => f_write (Text.line (format_nkpts NKPTS))
     | Ml => f_write (Text.line (py_str (dict_get_or_none "kpts_nintersections" p)))
     end ;;;
     match MODE with
     | Mm => f_write (Text.line "Monkhorst-Pack")
     | Mg => f_write (Text.line "Gamma")
     | Mc | Mk => f_write (Text.line "Cartesian")
     | Ml => f_write (Text.line "Line-mode")
     | Mr => f_write (Text.line "Reciprocal")
     end ;;;
     points <- kpoints_points p MODE ;;
     for_each write_point points).

(* ================================================================== *)
(** ** The INCAR file, item by item *)
(* ================================================================== *)

(** All the texts of [parts], one after the other. *)
Fixpoint cat (parts : list string) : string :=
  match parts with
  | [] => EmptyString
  | p :: rest => p ++ cat rest
  end.

(** The items of [d] in [write_incar], in the order the loop visits them. *)
Definition incar_items (rank : string -> nat) (self : Vasp) : list (string * pyval) :=
  map (fun key => (key, dict_get_or_none key (parameters self))) (incar_keys rank self).

(** What one pass of the loop body appends to the file: nothing for a
    [None] value, one line otherwise. *)
Definition incar_line (self : Vasp) (item : string * pyval) : result string :=
  if is_none (snd item) then Ok EmptyString
  else
    let? text := incar_value self (" " ++ Text.upper (fst item)) (snd item) in
    Ok (Text.line (" " ++ Text.upper (fst item) ++ " = " ++ text)).


(** Ranks never decrease along a list. *)
Inductive ranked (rank : string -> nat) : list string -> Prop :=
| ranked_nil : ranked rank []
| ranked_cons x l :
    Forall (fun y => (rank x <= rank y)%nat) l -> ranked rank l -> ranked rank (x :: l).

(** The non-special items of the store in insertion order, which is the
    order the specification gives the directive lines. *)
Definition items_in_insertion_order (self : Vasp) : list (string * pyval) :=
  filter (fun item => negb (existsb (String.eqb (fst item)) (special_kwargs self)))
    (parameters self).

(* ================================================================== *)
(** ** The base class loop, and the conditions on a repeated [set] *)
(* ================================================================== *)

(** The store holds, under [k], the value [v] itself or a value that
    the comparison finds equal to [v], which the loop of the base class
    therefore did not replace. *)
Definition settled (equal : comparison) (p : Dict.t pyval) (k : string) (v : pyval)
  : Prop :=
  exists w, Dict.get k p = Some w /\ (w = v \/ equal v w = Ok true).

(** A comparison to run the examples with.  As the comparison of the
    library it goes through arrays: a value that has no array (rows of
    unequal shape) ends it in the [ValueError] of numpy.  Values that
    have one are compared here by Python's [==], which is the answer of
    the library on the values of the examples: [None], booleans, texts,
    small integers and lists of them. *)
Definition equal_through_arrays : comparison :=
  fun a b =>
    match np_shape a, np_shape b with
    | Some _, Some _ => Ok (py_eq a b)
    | _, _ => Raise (ValueError "the requested array has an inhomogeneous shape")
    end.


(** One expansion step of [set], seen from outside: the keyword is
    absent and nothing is merged ([d] is empty), or it has a value [v]
    for which the expander ran as [run v] says and returned [d]. *)
Definition stage (key : string) (kwargs d : Dict.t pyval) (run : pyval -> Prop) : Prop :=
  (Dict.get key kwargs = None /\ d = []) \/
  (exists v, Dict.get key kwargs = Some v /\ run v).

(** The keys the expanders test or are called for. *)
Definition reserved_keys : list string :=
  ["xc"; "ispin"; "ldau_luj"; "nsw"; "magmom"; "lorbit"; "setups"].

(** No entry of the defaults table assigns a reserved key. *)
Definition table_clean (self : Vasp) : bool :=
  forallb (fun entry => forallb (fun k => negb (Dict.mem k (snd entry))) reserved_keys)
    (xc_defaults self).

(** The keys of the defaults of the method the store holds. *)
Definition old_default_keys (self : Vasp) : list string :=
  match dict_get_or_none "xc" (parameters self) with
  | VStr old =>
      match Dict.get (Text.lower old) (xc_defaults self) with
      | Some e => Dict.keys e
      | None => []
      end
  | _ => []
  end.


(* ================================================================== *)
(** ** Tactics *)
(* ================================================================== *)

(** Splitting a lookup in a dictionary that is written out. *)
Ltac key_cases k :=
  repeat match goal with
         | H : context [String.eqb k ?s] |- _ =>
             destruct (String.eqb_spec k s); [subst k|]
         | |- context [String.eqb k ?s] =>
             destruct (String.eqb_spec k s); [subst k|]
         end.

(** Deciding that a key written out is not in a list written out. *)
Ltac not_in_keys :=
  cbn; intros H;
  repeat match type of H with
         | _ \/ _ => destruct H as [H | H]
         end; (discriminate H || contradiction).

(* ================================================================== *)
(** ** An example calculator *)
(* ================================================================== *)

(** A calculator on one iron atom with a two-entry defaults table,
    holding the parameters [p]. *)
Definition example_calc (p : Dict.t pyval) : Vasp :=
  {| parameters := p;
     special_kwargs := ["xc"; "pp"; "setups"; "kpts"; "gamma";
                        "kpts_nintersections"; "reciprocal"; "ldau_luj"];
     xc_defaults := [("pbe", [("pp", VStr "PBE")]);
                     ("rpbe", [("pp", VStr "LDA"); ("gga", VStr "RP")])];
     atoms := [{| symbol := "Fe"; magmom := VInt 2 |}];
     resort := [0];
     ppp_list := None;
     species_order := [{| ppp_key := SubStr "Fe";
                          ppp_file := "potpaw_PBE/Fe/POTCAR";
                          ppp_count := 1 |}];
     calc_dir := "calc";
     results := true |}.

(** A point or a grid of integers. *)
Definition ints (l : list Z) : pyval := VSeq KList (map VInt l).

(** The comment lines the writers start their files with. *)
Definition kpoints_comment : string :=
  Text.line "KPOINTS created by Atomic Simulation Environment".

Definition incar_comment : string :=
  Text.line "INCAR created by Atomic Simulation Environment".

(* ================================================================== *)
(** ** writers.py: the POTCAR file *)
(* ================================================================== *)

(** [os.environ[name]]. *)
Definition environ_getitem (environ : Dict.t string) (name : string) : result string :=
  match Dict.get name environ with
  | Some v => Ok v
  | None => Raise (KeyError name)
  end.

(** [Exception('{} does not exist', pfile)]: the text is not formatted,
    the exception holds the two arguments, and its [str] is that of the
    pair. *)
Definition potential_missing (pfile : string) : exn :=
  Exception (py_repr (VSeq KTuple [VStr "{} does not exist"; VStr pfile])).

(** [potfile.write(content)] on the file open at [path]; what is written
    is taken to reach the file at once. *)
Definition file_append (path content : string) : ST files unit :=
  modify (fun fs =>
            Dict.set path
              (match Dict.get path fs with
               | Some written => written ++ content
               | None => content
               end) fs).

(** The body of the loop over [self.ppp_list]: the potential file is
    looked up under [$VASP_PP_PATH], must exist, and is appended whole.
    The files are regular files: [os.path.exists] is membership. *)
Definition add_potential (environ : Dict.t string) (fname : string) (x : ppp_entry)
  : ST files unit :=
  dir <- lift (environ_getitem environ "VASP_PP_PATH") ;;
  let pfile := Text.path_join dir (ppp_file x) in
  fs <- get_state ;;
  match Dict.get pfile fs with
  | None => lift (Raise (potential_missing pfile))
  | Some content => file_append fname content
  end.

(** [open(fname, 'wb')] empties the file before [self.ppp_list] is read. *)
Definition write_potcar (environ : Dict.t string) (self : Vasp) (fname : option string)
  : ST files unit :=
  let fname := default_path (calc_dir self) "POTCAR" fname in
  modify (Dict.set fname EmptyString) ;;;
  ppp <- lift (get_ppp_list self) ;;
  for_each (add_potential environ fname) ppp.

(** The path of the potential file of [x] under [dir]. *)
Definition potential_path (dir : string) (x : ppp_entry) : string :=
  Text.path_join dir (ppp_file x).

(** An environment and files with the potential of iron in place. *)
Definition example_environ : Dict.t string := [("VASP_PP_PATH", "/pp")].

Definition example_files : files :=
  [("/pp/potpaw_PBE/Fe/POTCAR", "PAW_PBE Fe"); ("calc/POTCAR", "stale")].

(** A species order of two, iron then oxygen, and a calculator holding it. *)
Definition iron_then_oxygen : list ppp_entry :=
  [{| ppp_key := SubStr "Fe"; ppp_file := "potpaw_PBE/Fe/POTCAR"; ppp_count := 1 |};
   {| ppp_key := SubStr "O"; ppp_file := "potpaw_PBE/O/POTCAR"; ppp_count := 2 |}].

Definition oxide_calc (p : Dict.t pyval) : Vasp :=
  with_ppp_list (example_calc p) (Some iron_then_oxygen).

Definition oxide_files : files :=
  [("/pp/potpaw_PBE/O/POTCAR", "PAW_PBE O"); ("/pp/potpaw_PBE/Fe/POTCAR", "PAW_PBE Fe");
   ("calc/POTCAR", "stale")].

(* ================================================================== *)
(** ** Writing to an open file *)
(* ================================================================== *)

(** A computation on an open file that only adds to what is written. *)
Definition appends {A : Type} (m : ST string A) : Prop :=
  forall written, exists more, fst (m written) = written ++ more.

(** The first part of [set]: the four keyword expansions in the order of
    the source, before the base class is called. *)
Definition expansions (kwargs : Dict.t pyval) : ST Vasp (Dict.t pyval) :=
  kwargs <- expand "xc" call_set_xc_dict kwargs ;;
  kwargs <- expand "ispin" call_set_ispin_dict kwargs ;;
  kwargs <- expand "ldau_luj" call_set_ldau_luj_dict kwargs ;;
  expand "nsw" call_set_nsw_dict kwargs.

(* ================================================================== *)
(** * Properties *)
(* ================================================================== *)

(** ** Text and the monad *)

Lemma str_app_assoc (a b c : string) : ((a ++ b) ++ c = a ++ (b ++ c))%string.
Proof. induction a as [|x a IH]; simpl; [reflexivity | now rewrite IH]. Qed.

Lemma str_app_nil_r (a : string) : (a ++ EmptyString = a)%string.
Proof. induction a as [|x a IH]; simpl; [reflexivity | now rewrite IH]. Qed.

Lemma f_write_run (text written : string) :
  f_write text written = ((written ++ text)%string, Ok tt).
Proof. reflexivity. Qed.

Lemma bind_ok {S A B : Type} (m : ST S A) (f : A -> ST S B) (s s' : S) (a : A) :
  m s = (s', Ok a) -> bind m f s = f a s'.
Proof. intros H. unfold bind. now rewrite H. Qed.

Lemma bind_raise {S A B : Type} (m : ST S A) (f : A -> ST S B) (s s' : S) (e : exn) :
  m s = (s', Raise e) -> bind m f s = (s', Raise e).
Proof. intros H. unfold bind. now rewrite H. Qed.

(** ** KPOINTS *)

(** C10: without a [kpts] key, and with neither [kpts_nintersections]
    nor a true [reciprocal] flag, there is no count and the mode is the
    cartesian one: the file receives the comment, the count line [None]
    and the format line [Cartesian], and reading the points then raises
    [KeyError], which leaves the file with these three lines. *)
Theorem write_kpoints_without_kpts (self : Vasp) (fname : option string) (fs : files) :
  Dict.get "kpts" (parameters self) = None ->
  is_none (dict_get_or_none "kpts_nintersections" (parameters self)) = true ->
  py_eq (dict_get_or_none "reciprocal" (parameters self)) (VBool true) = false ->
  kpoints_count (parameters self) = Ok None /\
  kpoints_mode (parameters self) None = Mc /\
  write_kpoints self fname fs =
    (Dict.set (default_path (calc_dir self) "KPOINTS" fname)
       (kpoints_comment ++ Text.line "None" ++ Text.line "Cartesian") fs,
     Raise (KeyError "kpts")).
Proof.
  intros Hk Hl Hr.
  assert (Hc : kpoints_count (parameters self) = Ok None).
  { unfold kpoints_count, dict_get_or_none. rewrite Hk. reflexivity. }
  assert (Hm : kpoints_mode (parameters self) None = Mc).
  { unfold kpoints_mode. rewrite Hl, Hr. reflexivity. }
  repeat split; trivial.
  unfold write_kpoints. unfold bind at 1, lift. rewrite Hc, Hm.
  unfold with_open_w, kpoints_points, dict_getitem. rewrite Hk.
  reflexivity.
Qed.

Lemma write_kpoints_without_kpts_witness :
  kpoints_count (parameters (example_calc [("encut", VInt 400)])) = Ok None /\
  kpoints_mode (parameters (example_calc [("encut", VInt 400)])) None = Mc /\
  write_kpoints (example_calc [("encut", VInt 400)]) None [] =
    (Dict.set (default_path (calc_dir (example_calc [("encut", VInt 400)])) "KPOINTS" None)
       (kpoints_comment ++ Text.line "None" ++ Text.line "Cartesian") [],
     Raise (KeyError "kpts")).
Proof.
  apply (write_kpoints_without_kpts (example_calc [("encut", VInt 400)]) None []);
    reflexivity.
Defined.

(** A sequence whose array has one dimension is counted as [0]. *)
Lemma kpoints_count_flat (p : Dict.t pyval) (kind : seq_kind) (items : list pyval) (n : nat) :
  Dict.get "kpts" p = Some (VSeq kind items) ->
  np_shape (VSeq kind items) = Some [n] ->
  kpoints_count p = Ok (Some 0).
Proof.
  intros Hk Hs. unfold kpoints_count, dict_get_or_none.
  rewrite Hk. cbn [is_none]. rewrite Hs. reflexivity.
Qed.




(** In the cartesian and reciprocal modes the whole [kpts] value is the
    one element of [points]: the length that is compared with 4 is the
    number of points. *)
Lemma kpoints_points_explicit (p : Dict.t pyval) (MODE : kmode) (k : pyval) (n : Z)
  (written : string) :
  MODE = Mc \/ MODE = Mr ->
  Dict.get "kpts" p = Some k ->
  py_len k = Ok n ->
  kpoints_points p MODE written =
    if n =? 4 then (written, Ok [k])
    else (written, Raise (ValueError "Kpoint ERROR: weights must be provided")).
Proof.
  intros HM Hk Hn.
  assert (Hget : dict_getitem "kpts" p = Ok k).
  { unfold dict_getitem. now rewrite Hk. }
  destruct HM as [-> | ->]; unfold kpoints_points;
    (erewrite bind_ok by (unfold lift; rewrite Hget; reflexivity));
    cbn [any_len_not_4]; rewrite Hn; cbn [rbind];
    destruct (n =? 4); reflexivity.
Qed.

(** C1, the code at work: two points of four fields each are refused
    with the validation error, and four points of three fields each are
    written without an error. *)
Example write_kpoints_validates_the_number_of_points :
  snd (write_kpoints
         (example_calc [("kpts", VSeq KList [ints [0; 0; 0; 1]; ints [1; 0; 0; 1]])])
         None []) =
    Raise (ValueError "Kpoint ERROR: weights must be provided") /\
  snd (write_kpoints
         (example_calc [("kpts", VSeq KList [ints [0; 0; 0]; ints [1; 0; 0];
                                             ints [0; 1; 0]; ints [0; 0; 1]])])
         None []) = Ok tt.
Proof. split; reflexivity. Qed.

(** C2, the code at work: for two valid points the file holds the
    comment, the count line [2] and the format line [Cartesian], and no
    point line, the write ending in the validation error; for four
    valid points the block is one line that holds the four points. *)
Example write_kpoints_cartesian_block :
  write_kpoints
    (example_calc [("kpts", VSeq KList [ints [0; 0; 0; 1]; ints [1; 0; 0; 1]])])
    None [] =
    ([("calc/KPOINTS", kpoints_comment ++ Text.line "2" ++ Text.line "Cartesian")],
     Raise (ValueError "Kpoint ERROR: weights must be provided")) /\
  write_kpoints
    (example_calc [("kpts", VSeq KList [ints [0; 0; 0; 1]; ints [1; 0; 0; 1];
                                        ints [0; 1; 0; 1]; ints [0; 0; 1; 1]])])
    None [] =
    ([("calc/KPOINTS",
       kpoints_comment ++ Text.line "4" ++ Text.line "Cartesian"
       ++ Text.line "[0, 0, 0, 1] [1, 0, 0, 1] [0, 1, 0, 1] [0, 0, 1, 1]")],
     Ok tt).
Proof. split; reflexivity. Qed.

(** The cartesian mode on every explicit list of points: the count line
    is the number of points, and that number alone decides between the
    validation error and a block of one line. *)
Lemma write_kpoints_cartesian (self : Vasp) (fname : option string) (fs : files)
  (kind : seq_kind) (points : list pyval) (shape : list nat) :
  Dict.get "kpts" (parameters self) = Some (VSeq kind points) ->
  np_shape (VSeq kind points) = Some shape ->
  List.length shape <> 1%nat ->
  is_none (dict_get_or_none "kpts_nintersections" (parameters self)) = true ->
  py_eq (dict_get_or_none "reciprocal" (parameters self)) (VBool true) = false ->
  write_kpoints self fname fs =
    if (List.length points =? 4)%nat then
      (Dict.set (default_path (calc_dir self) "KPOINTS" fname)
         (kpoints_comment ++ Text.line "4" ++ Text.line "Cartesian"
          ++ Text.line (Text.join " " (map py_str points))) fs,
       Ok tt)
    else
      (Dict.set (default_path (calc_dir self) "KPOINTS" fname)
         (kpoints_comment ++ Text.line (Text.of_Z (Z.of_nat (List.length points)))
          ++ Text.line "Cartesian") fs,
       Raise (ValueError "Kpoint ERROR: weights must be provided")).
Proof.
  intros Hk Hs Hsh Hl Hr.
  assert (Hne : points <> []).
  { intros ->. cbn in Hs. injection Hs as <-. now apply Hsh. }
  assert (Hc : kpoints_count (parameters self)
               = Ok (Some (Z.of_nat (List.length points)))).
  { unfold kpoints_count, dict_get_or_none, dict_getitem.
    rewrite Hk. cbn [is_none]. rewrite Hs.
    destruct (Nat.eqb_spec (List.length shape) 1) as [E | _]; [contradiction | reflexivity]. }
  assert (Hz : (Z.of_nat (List.length points) =? 0) = false).
  { destruct points; [contradiction | reflexivity]. }
  assert (Hm : kpoints_mode (parameters self) (Some (Z.of_nat (List.length points))) = Mc).
  { unfold kpoints_mode. now rewrite Hz, Hl, Hr. }
  unfold write_kpoints. unfold bind at 1, lift. rewrite Hc, Hm.
  unfold with_open_w.
  rewrite (bind_ok _ _ _ _ _ (f_write_run _ _)).
  rewrite (bind_ok _ _ _ _ _ (f_write_run _ _)).
  rewrite (bind_ok _ _ _ _ _ (f_write_run _ _)).
  unfold bind at 1.
  rewrite (kpoints_points_explicit _ Mc _ _ _ (or_introl eq_refl) Hk eq_refl).
  destruct (Nat.eqb_spec (List.length points) 4) as [E | E].
  - rewrite E. cbn [Z.of_nat Pos.of_succ_nat Pos.succ Z.eqb Pos.eqb].
    unfold for_each, write_point, bind, lift, py_iter, f_write, modify, ret.
    cbn [format_nkpts]. rewrite !str_app_assoc. reflexivity.
  - replace (Z.of_nat (List.length points) =? 4) with false
      by (symmetry; apply Z.eqb_neq; lia).
    cbn [format_nkpts]. rewrite !str_app_assoc. reflexivity.
Qed.

(** ** Dictionaries *)

Section DictFacts.

Context {A : Type}.
Implicit Types (d e : Dict.t A) (k : string) (v : A).

Lemma get_set k k' v d :
  Dict.get k (Dict.set k' v d) = if String.eqb k k' then Some v else Dict.get k d.
Proof.
  induction d as [|[k1 v1] d IH]; simpl.
  - reflexivity.
  - destruct (String.eqb_spec k' k1) as [-> | Hne]; simpl.
    + destruct (String.eqb k k1); reflexivity.
    + rewrite IH. destruct (String.eqb_spec k k1) as [-> | _]; [|reflexivity].
      destruct (String.eqb_spec k1 k') as [E | _]; [now subst | reflexivity].
Qed.

Lemma get_set_eq k v d : Dict.get k (Dict.set k v d) = Some v.
Proof. rewrite get_set. now rewrite String.eqb_refl. Qed.

Lemma get_set_ne k k' v d : k <> k' -> Dict.get k (Dict.set k' v d) = Dict.get k d.
Proof. intros H. rewrite get_set. now apply String.eqb_neq in H as ->. Qed.

Lemma mem_set k k' v d :
  Dict.mem k (Dict.set k' v d) = String.eqb k k' || Dict.mem k d.
Proof. unfold Dict.mem. rewrite get_set. now destruct (String.eqb k k'). Qed.

Lemma mem_In k d : Dict.mem k d = true <-> In k (Dict.keys d).
Proof.
  unfold Dict.mem. induction d as [|[k1 v1] d IH]; simpl.
  - split; [discriminate | tauto].
  - destruct (String.eqb_spec k k1) as [-> | Hne].
    + split; auto.
    + rewrite IH. split; [auto | intros [E | H]; [now subst | exact H]].
Qed.

Lemma mem_false_get k d : Dict.mem k d = false <-> Dict.get k d = None.
Proof. unfold Dict.mem. destruct (Dict.get k d); split; congruence. Qed.

Lemma get_some_mem k v d : Dict.get k d = Some v -> Dict.mem k d = true.
Proof. unfold Dict.mem. now intros ->. Qed.

Lemma wf_NoDup d : Dict.wf d = true <-> NoDup (Dict.keys d).
Proof.
  induction d as [|[k1 v1] d IH]; simpl.
  - split; [constructor | reflexivity].
  - rewrite andb_true_iff, negb_true_iff, IH.
    split.
    + intros [Hm Hd]. constructor; [|exact Hd].
      rewrite <- mem_In. now rewrite Hm.
    + intros H. inversion H as [|? ? Hn Hd]; subst. split; [|exact Hd].
      destruct (Dict.mem k1 d) eqn:E; [|reflexivity].
      now apply mem_In in E.
Qed.

Lemma keys_set_In k k' v d :
  In k (Dict.keys (Dict.set k' v d)) <-> k = k' \/ In k (Dict.keys d).
Proof.
  rewrite <- !mem_In, mem_set, orb_true_iff, String.eqb_eq. reflexivity.
Qed.

Lemma wf_set k v d : Dict.wf d = true -> Dict.wf (Dict.set k v d) = true.
Proof.
  induction d as [|[k1 v1] d IH]; simpl; [reflexivity|].
  rewrite andb_true_iff, negb_true_iff. intros [Hm Hd].
  destruct (String.eqb_spec k k1) as [-> | Hne]; simpl.
  - now rewrite Hm, Hd.
  - rewrite (IH Hd), mem_set, Hm.
    apply not_eq_sym in Hne. now apply String.eqb_neq in Hne as ->.
Qed.

Lemma wf_update d e : Dict.wf d = true -> Dict.wf (Dict.update d e) = true.
Proof.
  revert d. induction e as [|[k v] e IH]; simpl; intros d H; [exact H|].
  apply IH. now apply wf_set.
Qed.

(** Updating with a dictionary [e]: a key of [e] takes its value there,
    every other key keeps its value. *)
Lemma get_update k d e :
  Dict.wf e = true ->
  Dict.get k (Dict.update d e) =
    match Dict.get k e with
    | Some v => Some v
    | None => Dict.get k d
    end.
Proof.
  revert d. induction e as [|[k1 v1] e IH]; simpl; intros d H; [reflexivity|].
  apply andb_true_iff in H as [Hm He]. apply negb_true_iff in Hm.
  rewrite (IH _ He), get_set.
  destruct (String.eqb_spec k k1) as [-> | _]; [|reflexivity].
  apply mem_false_get in Hm. now rewrite Hm.
Qed.

Lemma mem_update k d e :
  Dict.mem k (Dict.update d e) = Dict.mem k e || Dict.mem k d.
Proof.
  revert d. induction e as [|[k1 v1] e IH]; simpl; intros d; [reflexivity|].
  rewrite IH, mem_set. unfold Dict.mem at 3. simpl.
  destruct (String.eqb k k1); simpl.
  - now rewrite orb_true_r.
  - reflexivity.
Qed.

(** A key outside [e] keeps its value, whether or not [e] is well formed. *)
Lemma get_update_other k d e :
  Dict.mem k e = false -> Dict.get k (Dict.update d e) = Dict.get k d.
Proof.
  revert d. induction e as [|[k1 v1] e IH]; simpl; intros d H; [reflexivity|].
  unfold Dict.mem in H. simpl in H.
  destruct (String.eqb_spec k k1) as [-> | Hne]; [discriminate|].
  rewrite IH by exact H. now apply get_set_ne.
Qed.

End DictFacts.

(** ** The expanders *)

(** C9: whatever the value, [None] included, the [ldau_luj] expander
    raises the configuration error as soon as the store has a [setups]
    key; nothing is computed before the test, so [self] is as it was and
    no dictionary is returned. *)
Theorem set_ldau_luj_dict_refuses_setups (self : Vasp) (val : pyval) :
  Dict.mem "setups" (parameters self) = true ->
  set_ldau_luj_dict val self =
    (self, Raise (Exception "setups and ldau_luj is not supported.")).
Proof.
  intros H. unfold set_ldau_luj_dict, bind, get_state, lift.
  now rewrite H.
Qed.

Lemma set_ldau_luj_dict_refuses_setups_witness :
  set_ldau_luj_dict VNone (example_calc [("setups", VDict [("Fe", VStr "_pv")])]) =
    (example_calc [("setups", VDict [("Fe", VStr "_pv")])],
     Raise (Exception "setups and ldau_luj is not supported.")).
Proof.
  apply (set_ldau_luj_dict_refuses_setups
           (example_calc [("setups", VDict [("Fe", VStr "_pv")])]) VNone).
  reflexivity.
Defined.

(** The [xc] and [ispin] expansions read [self] and leave it alone. *)
Lemma expand_xc_self (kwargs : Dict.t pyval) (self self' : Vasp)
  (r : result (Dict.t pyval)) :
  expand "xc" call_set_xc_dict kwargs self = (self', r) -> self' = self.
Proof.
  unfold expand, call_set_xc_dict, bind, get_state, lift, ret.
  destruct (Dict.get "xc" kwargs) as [val|]; [|now intros [= <- _]].
  destruct (set_xc_dict self val); now intros [= <- _].
Qed.

Lemma expand_ispin_self (kwargs : Dict.t pyval) (self self' : Vasp)
  (r : result (Dict.t pyval)) :
  expand "ispin" call_set_ispin_dict kwargs self = (self', r) -> self' = self.
Proof.
  unfold expand, call_set_ispin_dict, bind, get_state, lift, ret.
  destruct (Dict.get "ispin" kwargs) as [val|]; [|now intros [= <- _]].
  destruct (set_ispin_dict self val); now intros [= <- _].
Qed.

(** For every [ispin] value that is not [None] and equals neither 1 nor
    2 the expander takes no branch and returns no dictionary; merging
    that into the keywords raises [TypeError], and [set] ends there,
    before the base class is called: [self], and so the parameter
    store, is as it was. *)
Lemma set_other_ispin (equal : comparison) (self self' : Vasp)
  (kwargs kwargs1 : Dict.t pyval) (v : pyval) :
  expand "xc" call_set_xc_dict kwargs self = (self', Ok kwargs1) ->
  Dict.get "ispin" kwargs1 = Some v ->
  is_none v = false ->
  py_eq v (VInt 1) = false ->
  py_eq v (VInt 2) = false ->
  set_ispin_dict self v = Ok None /\
  set equal kwargs self = (self, Raise (TypeError "NoneType object is not iterable")).
Proof.
  intros Hxc Hget Hn H1 H2.
  assert (Hd : set_ispin_dict self v = Ok None).
  { unfold set_ispin_dict. now rewrite Hn, H1, H2. }
  split; [exact Hd|].
  pose proof (expand_xc_self _ _ _ _ Hxc) as ->.
  unfold set. rewrite (bind_ok _ _ _ _ _ Hxc).
  apply bind_raise.
  unfold expand. rewrite Hget.
  unfold call_set_ispin_dict, bind, get_state, lift. now rewrite Hd.
Qed.

(** C5, the code at work: for [ispin=3] the expander, whose docstring
    promises the dictionary of changes, falls off its last branch and
    returns [None]; [set(ispin=3)] is then no silent no-op: it ends in
    the [TypeError] of merging [None] into the keywords, whatever the
    comparison of the base class, which is not reached.  The store is as
    it was. *)
Example set_ispin_3_is_an_error (equal : comparison) :
  set_ispin_dict (example_calc [("encut", VInt 400)]) (VInt 3) = Ok None /\
  set equal [("ispin", VInt 3)] (example_calc [("encut", VInt 400)]) =
    (example_calc [("encut", VInt 400)],
     Raise (TypeError "NoneType object is not iterable")) /\
  ~ (exists changed : Dict.t pyval,
       snd (set equal [("ispin", VInt 3)] (example_calc [("encut", VInt 400)]))
         = Ok changed).
Proof.
  destruct (set_other_ispin equal (example_calc [("encut", VInt 400)])
              (example_calc [("encut", VInt 400)])
              [("ispin", VInt 3)] [("ispin", VInt 3)] (VInt 3)
              eq_refl eq_refl eq_refl eq_refl eq_refl) as [Hd Hs].
  split; [exact Hd|]. split; [exact Hs|].
  intros [changed H]. rewrite Hs in H. discriminate H.
Qed.

(** ** The [xc] expander *)

Lemma mem_existsb {A : Type} (k : string) (d : Dict.t A) :
  Dict.mem k d = existsb (String.eqb k) (Dict.keys d).
Proof.
  unfold Dict.mem. induction d as [|[k1 v1] d IH]; simpl; [reflexivity|].
  destruct (String.eqb k k1); [reflexivity | exact IH].
Qed.

(** What [mark_removed] leaves under each key. *)
Lemma get_mark_removed (self : Vasp) (keys : list string) (d : Dict.t pyval) (k : string) :
  Dict.get k (mark_removed self keys d) =
    if existsb (String.eqb k) keys && Dict.mem k (parameters self)
    then Some VNone else Dict.get k d.
Proof.
  unfold mark_removed. revert d.
  induction keys as [|key keys IH]; simpl; intros d; [reflexivity|].
  rewrite IH.
  destruct (existsb (String.eqb k) keys && Dict.mem k (parameters self)) eqn:E.
  - apply andb_true_iff in E as [E1 E2]. rewrite E1, E2. now rewrite orb_true_r.
  - destruct (String.eqb_spec k key) as [<- | Hne]; simpl.
    + destruct (Dict.mem k (parameters self)).
      * apply get_set_eq.
      * reflexivity.
    + rewrite E. destruct (Dict.mem key (parameters self)); [|reflexivity].
      now apply get_set_ne.
Qed.

Lemma wf_mark_removed (self : Vasp) (keys : list string) (d : Dict.t pyval) :
  Dict.wf d = true -> Dict.wf (mark_removed self keys d) = true.
Proof.
  unfold mark_removed. revert d.
  induction keys as [|key keys IH]; simpl; intros d H; [exact H|].
  apply IH. destruct (Dict.mem key (parameters self)); [now apply wf_set | exact H].
Qed.

(** The dictionary [set_xc_dict] returns for a new method over an old one. *)
Lemma set_xc_dict_over_old (self : Vasp) (old new : string) (e_old e_new : Dict.t pyval) :
  Dict.get "xc" (parameters self) = Some (VStr old) ->
  old <> EmptyString ->
  Dict.get (Text.lower old) (xc_defaults self) = Some e_old ->
  Dict.get (Text.lower new) (xc_defaults self) = Some e_new ->
  set_xc_dict self (VStr new) =
    Ok (Dict.update (mark_removed self (Dict.keys e_old) [("xc", VStr new)]) e_new).
Proof.
  intros Hxc Hne Ho Hn.
  unfold set_xc_dict, dict_get_or_none, xc_entry. rewrite Hxc.
  cbn [py_truthy str_lower rbind].
  apply String.eqb_neq in Hne. rewrite Hne. cbn [negb].
  now rewrite Ho, Hn.
Qed.

(** C4: over a store whose [xc] is [old], the [xc] expander called with
    [new] returns a dictionary that sets [xc] to [new], holds every
    assignment of [new]'s defaults, assigns [None] to every key of
    [old]'s defaults that is in the store and is not among [new]'s
    defaults, and holds nothing else.  The two defaults entries are
    dictionaries that do not themselves assign [xc]. *)
Theorem set_xc_dict_switch (self : Vasp) (old new : string) (e_old e_new : Dict.t pyval) :
  Dict.get "xc" (parameters self) = Some (VStr old) ->
  old <> EmptyString ->
  Dict.get (Text.lower old) (xc_defaults self) = Some e_old ->
  Dict.get (Text.lower new) (xc_defaults self) = Some e_new ->
  Dict.wf e_new = true ->
  Dict.mem "xc" e_old = false ->
  Dict.mem "xc" e_new = false ->
  exists d : Dict.t pyval,
    set_xc_dict self (VStr new) = Ok d /\
    Dict.get "xc" d = Some (VStr new) /\
    (forall k v, Dict.get k e_new = Some v -> Dict.get k d = Some v) /\
    (forall k, Dict.mem k e_old = true ->
               Dict.mem k (parameters self) = true ->
               Dict.mem k e_new = false ->
               Dict.get k d = Some VNone) /\
    (forall k, Dict.mem k d = true ->
               k = "xc" \/ Dict.mem k e_new = true \/
               (Dict.mem k e_old = true /\ Dict.mem k (parameters self) = true)).
Proof.
  intros Hxc Hne Ho Hn Hwf Hxo Hxn.
  eexists. split; [now apply (set_xc_dict_over_old self old new e_old e_new)|].
  repeat split.
  - rewrite get_update by exact Hwf.
    apply mem_false_get in Hxn. rewrite Hxn.
    rewrite get_mark_removed, <- mem_existsb, Hxo. reflexivity.
  - intros k v Hk. rewrite get_update by exact Hwf. now rewrite Hk.
  - intros k Hko Hkp Hkn. rewrite get_update by exact Hwf.
    apply mem_false_get in Hkn. rewrite Hkn.
    rewrite get_mark_removed, <- mem_existsb, Hko, Hkp. reflexivity.
  - intros k Hk. rewrite mem_update in Hk.
    destruct (Dict.mem k e_new); [now right; left|]. simpl in Hk.
    unfold Dict.mem in Hk at 1. rewrite get_mark_removed, <- mem_existsb in Hk.
    destruct (Dict.mem k e_old); simpl in Hk.
    + destruct (Dict.mem k (parameters self)); [now right; right|].
      simpl in Hk. left. destruct (String.eqb_spec k "xc"); [assumption | discriminate].
    + left. simpl in Hk. destruct (String.eqb_spec k "xc"); [assumption | discriminate].
Qed.

Lemma set_xc_dict_switch_witness :
  exists d : Dict.t pyval,
    set_xc_dict (example_calc [("xc", VStr "RPBE"); ("pp", VStr "LDA");
                               ("gga", VStr "RP"); ("encut", VInt 400)])
      (VStr "PBE") = Ok d /\
    Dict.get "xc" d = Some (VStr "PBE") /\
    (forall k v, Dict.get k [("pp", VStr "PBE")] = Some v -> Dict.get k d = Some v) /\
    (forall k, Dict.mem k [("pp", VStr "LDA"); ("gga", VStr "RP")] = true ->
               Dict.mem k (parameters
                             (example_calc [("xc", VStr "RPBE"); ("pp", VStr "LDA");
                                            ("gga", VStr "RP"); ("encut", VInt 400)]))
               = true ->
               Dict.mem k [("pp", VStr "PBE")] = false ->
               Dict.get k d = Some VNone) /\
    (forall k, Dict.mem k d = true ->
               k = "xc" \/ Dict.mem k [("pp", VStr "PBE")] = true \/
               (Dict.mem k [("pp", VStr "LDA"); ("gga", VStr "RP")] = true /\
                Dict.mem k (parameters
                              (example_calc [("xc", VStr "RPBE"); ("pp", VStr "LDA");
                                             ("gga", VStr "RP"); ("encut", VInt 400)]))
                = true)).
Proof.
  apply (set_xc_dict_switch
           (example_calc [("xc", VStr "RPBE"); ("pp", VStr "LDA");
                          ("gga", VStr "RP"); ("encut", VInt 400)])
           "RPBE" "PBE" [("pp", VStr "LDA"); ("gga", VStr "RP")] [("pp", VStr "PBE")]);
    (reflexivity || discriminate).
Defined.

(** ** Sets in iteration order *)

Lemma insert_by_perm (rank : string -> nat) (x : string) (l : list string) :
  Permutation (insert_by rank x l) (x :: l).
Proof.
  induction l as [|y l IH]; simpl; [reflexivity|].
  destruct (rank x <=? rank y)%nat; [reflexivity|].
  rewrite IH. apply perm_swap.
Qed.

Lemma sort_by_perm (rank : string -> nat) (l : list string) :
  Permutation (sort_by rank l) l.
Proof.
  induction l as [|x l IH]; simpl; [reflexivity|].
  rewrite insert_by_perm. now constructor.
Qed.

Lemma insert_by_ranked (rank : string -> nat) (x : string) (l : list string) :
  ranked rank l -> ranked rank (insert_by rank x l).
Proof.
  induction 1 as [|y l Hy Hl IH]; simpl.
  - constructor; constructor.
  - destruct (Nat.leb_spec (rank x) (rank y)) as [Hle | Hlt].
    + constructor; [|now constructor].
      constructor; [exact Hle|].
      eapply Forall_impl; [|exact Hy]. simpl. intros; lia.
    + constructor; [|exact IH].
      rewrite (insert_by_perm rank x l). constructor; [lia | exact Hy].
Qed.

Lemma sort_by_ranked (rank : string -> nat) (l : list string) :
  ranked rank (sort_by rank l).
Proof.
  induction l as [|x l IH]; simpl; [constructor | now apply insert_by_ranked].
Qed.

Lemma set_difference_In (rank : string -> nat) (xs ys : list string) (k : string) :
  In k (set_difference rank xs ys) <-> In k xs /\ existsb (String.eqb k) ys = false.
Proof.
  unfold set_difference.
  rewrite (Permutation_in' (eq_refl k) (sort_by_perm rank _)).
  rewrite nodup_In, filter_In, negb_true_iff. reflexivity.
Qed.

Lemma set_difference_NoDup (rank : string -> nat) (xs ys : list string) :
  NoDup (set_difference rank xs ys).
Proof.
  unfold set_difference.
  eapply Permutation_NoDup; [symmetry; apply sort_by_perm | apply NoDup_nodup].
Qed.

(** ** INCAR *)

Lemma set_set {A : Type} (k : string) (v v' : A) (d : Dict.t A) :
  Dict.set k v (Dict.set k v' d) = Dict.set k v d.
Proof.
  induction d as [|[k1 v1] d IH]; simpl.
  - now rewrite String.eqb_refl.
  - destruct (String.eqb_spec k k1) as [-> | Hne]; simpl.
    + now rewrite String.eqb_refl.
    + apply String.eqb_neq in Hne. rewrite Hne. now rewrite IH.
Qed.

(** Every key of [incar_keys] is a key of the store, so the lookups that
    build [d] succeed and [d] is [incar_items]. *)
Lemma incar_dict (rank : string -> nat) (self : Vasp) :
  rmap (fun key => let? val := dict_getitem key (parameters self) in Ok (key, val))
    (incar_keys rank self) = Ok (incar_items rank self).
Proof.
  unfold incar_items.
  assert (H : forall k, In k (incar_keys rank self) -> Dict.mem k (parameters self) = true).
  { intros k Hk. apply set_difference_In in Hk as [Hk _]. now apply mem_In. }
  induction (incar_keys rank self) as [|k l IH]; simpl; [reflexivity|].
  rewrite IH by (intros; apply H; now right).
  specialize (H k (or_introl eq_refl)).
  unfold dict_getitem, dict_get_or_none, Dict.mem in *.
  destruct (Dict.get k (parameters self)); [reflexivity | discriminate].
Qed.

Lemma write_incar_item_run (self : Vasp) (item : string * pyval) (written : string) :
  write_incar_item self item written =
    match incar_line self item with
    | Ok l => ((written ++ l)%string, Ok tt)
    | Raise e => (written, Raise e)
    end.
Proof.
  destruct item as [key val]. unfold write_incar_item, incar_line. simpl fst; simpl snd.
  destruct (is_none val).
  - cbn. now rewrite str_app_nil_r.
  - unfold bind, lift.
    destruct (incar_value self (" " ++ Text.upper key) val); reflexivity.
Qed.

(** The loop writes the lines of its items, up to the first that raises. *)
Lemma write_incar_items_ok (self : Vasp) (items : list (string * pyval))
  (lines : list string) (written : string) :
  rmap (incar_line self) items = Ok lines ->
  for_each (write_incar_item self) items written = ((written ++ cat lines)%string, Ok tt).
Proof.
  revert lines written.
  induction items as [|item items IH]; simpl; intros lines written H.
  - injection H as <-. cbn. now rewrite str_app_nil_r.
  - destruct (incar_line self item) as [l|e] eqn:El; [|discriminate].
    destruct (rmap (incar_line self) items) as [ls|e] eqn:Els; [|discriminate].
    injection H as <-.
    unfold bind. rewrite write_incar_item_run, El.
    rewrite (IH ls _ eq_refl). simpl. now rewrite str_app_assoc.
Qed.

Lemma write_incar_items_raise (self : Vasp) (items : list (string * pyval))
  (e : exn) (written : string) :
  rmap (incar_line self) items = Raise e ->
  snd (for_each (write_incar_item self) items written) = Raise e.
Proof.
  revert written.
  induction items as [|item items IH]; simpl; intros written H; [discriminate|].
  unfold bind. rewrite write_incar_item_run.
  destruct (incar_line self item) as [l|e'] eqn:El.
  - destruct (rmap (incar_line self) items) as [ls|e'] eqn:Els; [discriminate|].
    injection H as <-. now apply IH.
  - now injection H as <-.
Qed.

(** The file system after [write_incar]: the one file is replaced by
    what the loop wrote, which does not depend on the files. *)
Lemma write_incar_run (rank : string -> nat) (self : Vasp) (incar : option string)
  (fs : files) :
  write_incar rank self incar fs =
    (Dict.set (default_path (calc_dir self) "INCAR" incar)
       (fst ((f_write incar_comment ;;;
              for_each (write_incar_item self) (incar_items rank self)) EmptyString)) fs,
     snd ((f_write incar_comment ;;;
           for_each (write_incar_item self) (incar_items rank self)) EmptyString)).
Proof.
  unfold write_incar. unfold bind at 1, lift. rewrite incar_dict.
  unfold with_open_w. fold incar_comment.
  now destruct ((f_write incar_comment ;;;
                 for_each (write_incar_item self) (incar_items rank self)) EmptyString).
Qed.

Lemma write_incar_ok (rank : string -> nat) (self : Vasp) (incar : option string)
  (fs : files) (lines : list string) :
  rmap (incar_line self) (incar_items rank self) = Ok lines ->
  write_incar rank self incar fs =
    (Dict.set (default_path (calc_dir self) "INCAR" incar)
       (incar_comment ++ cat lines) fs, Ok tt).
Proof.
  intros H. rewrite write_incar_run.
  unfold bind at 1 2. rewrite f_write_run.
  now rewrite (write_incar_items_ok _ _ _ _ H).
Qed.

(** C6, as the code has it: a second write leaves the files and the
    outcome of the first, whatever the files held before; the keys are
    visited in the iteration order of the set of the non-special keys,
    each of them once; and a write that completes leaves the comment
    followed by the lines of these items in that order. *)
Theorem write_incar_is_stable (rank : string -> nat) (self : Vasp)
  (incar : option string) (fs : files) :
  write_incar rank self incar (fst (write_incar rank self incar fs)) =
    write_incar rank self incar fs /\
  (forall k, In k (incar_keys rank self) <->
             In k (Dict.keys (parameters self)) /\
             existsb (String.eqb k) (special_kwargs self) = false) /\
  NoDup (incar_keys rank self) /\
  ranked rank (incar_keys rank self) /\
  match rmap (incar_line self) (incar_items rank self) with
  | Ok lines =>
      write_incar rank self incar fs =
        (Dict.set (default_path (calc_dir self) "INCAR" incar)
           (incar_comment ++ cat lines) fs, Ok tt)
  | Raise e => snd (write_incar rank self incar fs) = Raise e
  end.
Proof.
  split; [|split; [|split; [|split]]].
  - rewrite !write_incar_run. simpl fst. now rewrite set_set.
  - intros k. apply set_difference_In.
  - apply set_difference_NoDup.
  - apply sort_by_ranked.
  - destruct (rmap (incar_line self) (incar_items rank self)) as [lines|e] eqn:E.
    + now apply write_incar_ok.
    + rewrite write_incar_run. simpl snd.
      unfold bind at 1. rewrite f_write_run.
      now apply write_incar_items_raise.
Qed.

(** C6, the claim as stated fails: the store holds [ismear] before
    [encut]; when the set of keys is visited by the length of the key
    the file has [ENCUT] first, which is not the insertion order, and
    under another order of the set the same store gives another file. *)
Lemma write_incar_not_in_insertion_order :
  items_in_insertion_order (example_calc [("ismear", VInt 1); ("encut", VInt 400)]) =
    [("ismear", VInt 1); ("encut", VInt 400)] /\
  write_incar String.length (example_calc [("ismear", VInt 1); ("encut", VInt 400)])
    None [] =
    ([("calc/INCAR", incar_comment ++ Text.line " ENCUT = 400" ++ Text.line " ISMEAR = 1")],
     Ok tt) /\
  rmap (incar_line (example_calc [("ismear", VInt 1); ("encut", VInt 400)]))
    (items_in_insertion_order (example_calc [("ismear", VInt 1); ("encut", VInt 400)])) =
    Ok [Text.line " ISMEAR = 1"; Text.line " ENCUT = 400"] /\
  incar_comment ++ Text.line " ENCUT = 400" ++ Text.line " ISMEAR = 1" <>
  incar_comment ++ cat [Text.line " ISMEAR = 1"; Text.line " ENCUT = 400"] /\
  write_incar (fun _ => 0%nat) (example_calc [("ismear", VInt 1); ("encut", VInt 400)])
    None [] <>
  write_incar String.length (example_calc [("ismear", VInt 1); ("encut", VInt 400)])
    None [].
Proof.
  split; [|split; [|split; [|split]]]; try reflexivity; discriminate.
Qed.





(** A non-special key of the store is visited once, with its value. *)
Lemma incar_items_once (rank : string -> nat) (self : Vasp) (k : string) (v : pyval) :
  Dict.get k (parameters self) = Some v ->
  existsb (String.eqb k) (special_kwargs self) = false ->
  exists before after,
    incar_items rank self = (before ++ (k, v) :: after)%list /\
    ~ In k (map fst before) /\ ~ In k (map fst after).
Proof.
  intros Hget Hsp.
  assert (Hin : In k (incar_keys rank self)).
  { apply set_difference_In. split; [|exact Hsp].
    apply mem_In. now apply get_some_mem in Hget. }
  pose proof (set_difference_NoDup rank (Dict.keys (parameters self)) (special_kwargs self))
    as Hnd.
  fold (incar_keys rank self) in Hnd.
  unfold incar_items.
  apply in_split in Hin as [l1 [l2 E]]. rewrite E in *.
  apply NoDup_remove_2 in Hnd.
  exists (map (fun key => (key, dict_get_or_none key (parameters self))) l1),
         (map (fun key => (key, dict_get_or_none key (parameters self))) l2).
  rewrite map_app. cbn [map]. unfold dict_get_or_none at 2. rewrite Hget.
  rewrite !map_map. cbn [fst]. rewrite !map_id.
  split; [reflexivity|].
  split; intros Hk; apply Hnd, in_or_app; auto.
Qed.




(** ** The base class [set] *)

Lemma with_parameters_same (self : Vasp) : with_parameters self (parameters self) = self.
Proof. now destruct self. Qed.

Lemma mem_cons {A : Type} (k k1 : string) (v : A) (d : Dict.t A) :
  Dict.mem k ((k1, v) :: d) = String.eqb k k1 || Dict.mem k d.
Proof. unfold Dict.mem. cbn. now destruct (String.eqb k k1). Qed.

(** The three ways one pass of the loop ends. *)
Lemma set_parameter_run (equal : comparison) (changed : Dict.t pyval) (k : string)
  (v : pyval) (self : Vasp) :
  set_parameter equal changed (k, v) self =
    match (if Dict.mem k (parameters self)
           then equal v (dict_get_or_none k (parameters self)) else Ok false) with
    | Ok true => (self, Ok changed)
    | Ok false => (with_parameters self (Dict.set k v (parameters self)),
                   Ok (Dict.set k v changed))
    | Raise e => (self, Raise e)
    end.
Proof.
  unfold set_parameter, bind, get_state, lift, ret, modify.
  destruct (Dict.mem k (parameters self)); cbn; [|reflexivity].
  destruct (equal v (dict_get_or_none k (parameters self))) as [[|]|e]; reflexivity.
Qed.

(** However the loop ends, it leaves a calculator that differs in the
    store only, and there only at the keys of the keywords. *)
Lemma set_parameters_frame (equal : comparison) (kwargs changed : Dict.t pyval)
  (self : Vasp) :
  exists p,
    fst (fold_each (set_parameter equal) kwargs changed self) = with_parameters self p /\
    (forall k, Dict.mem k kwargs = false -> Dict.get k p = Dict.get k (parameters self)).
Proof.
  revert changed self. induction kwargs as [|[k1 v1] kwargs IH]; intros changed self.
  - exists (parameters self). split; [cbn; now rewrite with_parameters_same | reflexivity].
  - cbn [fold_each]. unfold bind. rewrite set_parameter_run.
    assert (Hrest : forall k, Dict.mem k ((k1, v1) :: kwargs) = false ->
                              k <> k1 /\ Dict.mem k kwargs = false).
    { intros k. unfold Dict.mem. cbn.
      destruct (String.eqb_spec k k1) as [-> | Hne]; [discriminate | now split]. }
    destruct (if Dict.mem k1 (parameters self)
              then equal v1 (dict_get_or_none k1 (parameters self)) else Ok false)
      as [[|]|e].
    + destruct (IH changed self) as (p & Hp & Hframe).
      exists p. split; [exact Hp|]. intros k Hk. apply Hframe. now apply Hrest.
    + destruct (IH (Dict.set k1 v1 changed)
                  (with_parameters self (Dict.set k1 v1 (parameters self))))
        as (p & Hp & Hframe).
      exists p. split; [now rewrite Hp|]. intros k Hk.
      apply Hrest in Hk as [Hne Hk]. rewrite (Hframe k Hk). cbn.
      now apply get_set_ne.
    + exists (parameters self). split; [cbn; now rewrite with_parameters_same|].
      reflexivity.
Qed.

(** A loop that completes leaves the record of changes as it was at the
    keys it was not given. *)
Lemma set_parameters_changed_frame (equal : comparison) (kwargs changed : Dict.t pyval)
  (self self' : Vasp) (changed' : Dict.t pyval) :
  fold_each (set_parameter equal) kwargs changed self = (self', Ok changed') ->
  forall k, Dict.mem k kwargs = false -> Dict.get k changed' = Dict.get k changed.
Proof.
  revert changed self. induction kwargs as [|[k1 v1] kwargs IH]; intros changed self H k Hk.
  - cbn in H. now injection H as _ <-.
  - unfold Dict.mem in Hk. cbn in Hk.
    destruct (String.eqb_spec k k1) as [E | Hne]; [discriminate|].
    cbn [fold_each] in H. unfold bind in H. rewrite set_parameter_run in H.
    destruct (if Dict.mem k1 (parameters self)
              then equal v1 (dict_get_or_none k1 (parameters self)) else Ok false)
      as [[|]|e]; [| |discriminate H].
    + now apply (IH _ _ H).
    + rewrite (IH _ _ H k Hk). now apply get_set_ne.
Qed.

(** A loop that completes, key by key: a keyword is stored and recorded
    as changed, or the store keeps the value it had, which the
    comparison found equal.  The keys of the store afterwards are those
    of the keywords and those it had. *)
Lemma set_parameters_ok (equal : comparison) (kwargs changed changed' : Dict.t pyval)
  (self self' : Vasp) :
  Dict.wf kwargs = true ->
  fold_each (set_parameter equal) kwargs changed self = (self', Ok changed') ->
  (forall k, Dict.mem k (parameters self') =
             Dict.mem k kwargs || Dict.mem k (parameters self)) /\
  (forall k v, Dict.get k kwargs = Some v ->
     (Dict.get k (parameters self') = Some v /\ Dict.get k changed' = Some v) \/
     (exists w, Dict.get k (parameters self) = Some w /\
                Dict.get k (parameters self') = Some w /\
                equal v w = Ok true)) /\
  (forall k v, Dict.get k kwargs = Some v ->
               Dict.mem k (parameters self) = false ->
               Dict.get k (parameters self') = Some v).
Proof.
  revert changed self.
  induction kwargs as [|[k1 v1] kwargs IH]; intros changed self Hwf H.
  - cbn in H. injection H as <- <-.
    split; [reflexivity|]. split; intros k v Hk; discriminate Hk.
  - cbn in Hwf. apply andb_true_iff in Hwf as [Hk1 Hwf]. apply negb_true_iff in Hk1.
    fold (Dict.mem k1 kwargs) in Hk1.
    cbn [fold_each] in H. unfold bind in H. rewrite set_parameter_run in H.
    assert (Hstored : forall s0 c0,
               parameters s0 = Dict.set k1 v1 (parameters self) ->
               Dict.get k1 c0 = Some v1 ->
               fold_each (set_parameter equal) kwargs c0 s0 = (self', Ok changed') ->
               (forall k, Dict.mem k (parameters self') =
                          Dict.mem k ((k1, v1) :: kwargs) || Dict.mem k (parameters self)) /\
               (forall k v, Dict.get k ((k1, v1) :: kwargs) = Some v ->
                  (Dict.get k (parameters self') = Some v /\ Dict.get k changed' = Some v) \/
                  (exists w, Dict.get k (parameters self) = Some w /\
                             Dict.get k (parameters self') = Some w /\
                             equal v w = Ok true)) /\
               (forall k v, Dict.get k ((k1, v1) :: kwargs) = Some v ->
                            Dict.mem k (parameters self) = false ->
                            Dict.get k (parameters self') = Some v)).
    { intros s0 c0 Hp0 Hc0 H0.
      destruct (IH _ _ Hwf H0) as (Hmem & Hkeys & Hnew).
      destruct (set_parameters_frame equal kwargs c0 s0) as (p & Hp & Hframe).
      rewrite H0 in Hp. cbn [fst] in Hp.
      assert (Hch : Dict.get k1 (parameters self') = Some v1 /\
                    Dict.get k1 changed' = Some v1).
      { split.
        - rewrite Hp. cbn. rewrite (Hframe k1 Hk1), Hp0. apply get_set_eq.
        - rewrite (set_parameters_changed_frame equal kwargs c0 s0 self' changed' H0 k1 Hk1).
          exact Hc0. }
      split; [|split].
      - intros k. rewrite Hmem, Hp0, mem_set, mem_cons.
        destruct (String.eqb k k1); cbn; [now rewrite orb_true_r | reflexivity].
      - intros k v. cbn. destruct (String.eqb_spec k k1) as [-> | Hne].
        + intros [= <-]. now left.
        + intros Hk. destruct (Hkeys k v Hk) as [Hl | (w & Hw & Hw' & Heq)]; [now left|].
          right. exists w. rewrite Hp0, get_set_ne in Hw by exact Hne.
          now repeat split.
      - intros k v. cbn. destruct (String.eqb_spec k k1) as [-> | Hne].
        + intros [= <-] _. apply Hch.
        + intros Hk Hm. apply (Hnew k v Hk). rewrite Hp0, mem_set.
          apply String.eqb_neq in Hne. now rewrite Hne. }
    destruct (Dict.mem k1 (parameters self)) eqn:Em.
    + destruct (equal v1 (dict_get_or_none k1 (parameters self))) as [[|]|e] eqn:Ee;
        [| |discriminate H].
      * destruct (IH _ _ Hwf H) as (Hmem & Hkeys & Hnew).
        destruct (set_parameters_frame equal kwargs changed self) as (p & Hp & Hframe).
        rewrite H in Hp. cbn [fst] in Hp.
        split; [|split].
        -- intros k. rewrite Hmem, mem_cons.
           destruct (String.eqb_spec k k1) as [-> | _]; [|reflexivity].
           now rewrite Em, orb_true_r.
        -- intros k v. cbn. destruct (String.eqb_spec k k1) as [-> | _]; [|apply Hkeys].
           intros [= <-]. right.
           unfold Dict.mem in Em. unfold dict_get_or_none in Ee.
           destruct (Dict.get k1 (parameters self)) as [w|] eqn:Ew; [|discriminate Em].
           exists w. split; [reflexivity|]. split; [|exact Ee].
           rewrite Hp. cbn. rewrite (Hframe k1 Hk1). exact Ew.
        -- intros k v. cbn. destruct (String.eqb_spec k k1) as [-> | _]; [|apply Hnew].
           intros _ Hm. congruence.
      * refine (Hstored _ _ _ _ H); [reflexivity | apply get_set_eq].
    + refine (Hstored _ _ _ _ H); [reflexivity | apply get_set_eq].
Qed.


Lemma In_get {A : Type} (k : string) (v : A) (d : Dict.t A) :
  Dict.wf d = true -> In (k, v) d -> Dict.get k d = Some v.
Proof.
  induction d as [|[k1 v1] d IH]; intros Hwf Hin; [contradiction|].
  cbn in Hwf. apply andb_true_iff in Hwf as [Hk1 Hwf]. apply negb_true_iff in Hk1.
  cbn. destruct Hin as [E | Hin].
  - injection E as -> ->. now rewrite String.eqb_refl.
  - destruct (String.eqb_spec k k1) as [-> | _]; [|now apply IH].
    assert (Hm : Dict.mem k1 d = true) by (apply mem_In, in_map_iff; now exists (k1, v)).
    congruence.
Qed.

(** ** Two calls of [set] *)

Lemma bind_inv_ok {S A B : Type} (m : ST S A) (f : A -> ST S B) (s s' : S) (b : B) :
  bind m f s = (s', Ok b) ->
  exists s1 a, m s = (s1, Ok a) /\ f a s1 = (s', Ok b).
Proof.
  unfold bind. destruct (m s) as [s1 [a|e]]; [eauto | discriminate].
Qed.

Lemma expand_inv (key : string) (expander : pyval -> ST Vasp (option (Dict.t pyval)))
  (kwargs kwargs' : Dict.t pyval) (self self' : Vasp) :
  expand key expander kwargs self = (self', Ok kwargs') ->
  (Dict.get key kwargs = None /\ self' = self /\ kwargs' = kwargs) \/
  (exists val d, Dict.get key kwargs = Some val /\
                 expander val self = (self', Ok (Some d)) /\
                 kwargs' = Dict.update kwargs d).
Proof.
  unfold expand. destruct (Dict.get key kwargs) as [val|].
  - intros H. right. apply bind_inv_ok in H as [s1 [[d|] [He Hu]]];
      cbn in Hu; [|discriminate].
    injection Hu as <- <-. now exists val, d.
  - intros [= <- <-]. now left.
Qed.



(** The value a key of [e] has after an update with [e] does not depend
    on the dictionary that is updated. *)
Lemma get_update_from (k : string) (d d' e : Dict.t pyval) :
  Dict.mem k e = true ->
  Dict.get k (Dict.update d e) = Dict.get k (Dict.update d' e).
Proof.
  revert d d'. induction e as [|[k1 v1] e IH]; intros d d' H; [discriminate|].
  cbn [Dict.update].
  destruct (Dict.mem k e) eqn:E; [now apply IH|].
  rewrite !get_update_other by exact E.
  unfold Dict.mem in H, E. cbn in H.
  destruct (String.eqb_spec k k1) as [-> | _].
  - now rewrite !get_set_eq.
  - destruct (Dict.get k e); discriminate.
Qed.


Lemma get_In {A : Type} (k : string) (v : A) (d : Dict.t A) :
  Dict.get k d = Some v -> In (k, v) d.
Proof.
  induction d as [|[k1 v1] d IH]; cbn; [discriminate|].
  destruct (String.eqb_spec k k1) as [-> | _]; [intros [= ->]; now left | auto].
Qed.

Lemma table_clean_entry (self : Vasp) (name k : string) (e : Dict.t pyval) :
  table_clean self = true ->
  Dict.get name (xc_defaults self) = Some e ->
  In k reserved_keys ->
  Dict.mem k e = false.
Proof.
  unfold table_clean. intros Ht Hg Hk.
  rewrite forallb_forall in Ht. specialize (Ht _ (get_In _ _ _ Hg)).
  cbn [snd] in Ht. rewrite forallb_forall in Ht.
  specialize (Ht k Hk). now apply negb_true_iff in Ht.
Qed.

Lemma old_default_keys_clean (self : Vasp) (k : string) :
  table_clean self = true ->
  In k reserved_keys ->
  ~ In k (old_default_keys self).
Proof.
  intros Ht Hk. unfold old_default_keys.
  destruct (dict_get_or_none "xc" (parameters self)); try tauto.
  destruct (Dict.get (Text.lower s) (xc_defaults self)) as [e|] eqn:E; [|tauto].
  rewrite <- mem_In. now rewrite (table_clean_entry self _ k e Ht E Hk).
Qed.

(** What [set_xc_dict] returns over a clean table. *)
Lemma set_xc_dict_shape (c : Vasp) (v : pyval) (X : Dict.t pyval) :
  table_clean c = true ->
  set_xc_dict c v = Ok X ->
  exists new e_new,
    v = VStr new /\
    Dict.get (Text.lower new) (xc_defaults c) = Some e_new /\
    Dict.wf X = true /\
    Dict.get "xc" X = Some v /\
    (forall k, Dict.mem k X = true ->
               k = "xc" \/ Dict.mem k e_new = true \/ In k (old_default_keys c)) /\
    (forall k d, Dict.mem k e_new = true ->
                 Dict.get k X = Dict.get k (Dict.update d e_new)).
Proof.
  intros Ht. unfold set_xc_dict.
  assert (Hxc : In "xc" reserved_keys) by (now left).
  pose proof (old_default_keys_clean c "xc" Ht Hxc) as Hold.
  destruct (py_truthy (dict_get_or_none "xc" (parameters c))) eqn:Etr.
  - destruct (dict_get_or_none "xc" (parameters c)) as [| | | | old | |] eqn:Eo;
      try (cbn; discriminate).
    cbn [str_lower rbind]. unfold xc_entry at 1.
    destruct (Dict.get (Text.lower old) (xc_defaults c)) as [e_old|] eqn:Eold;
      [|cbn; discriminate].
    cbn [rbind].
    destruct v as [| | | | new | |]; try (cbn; discriminate).
    cbn [str_lower rbind]. unfold xc_entry.
    destruct (Dict.get (Text.lower new) (xc_defaults c)) as [e_new|] eqn:Enew;
      [|cbn; discriminate].
    cbn [rbind]. intros [= <-]. exists new, e_new.
    assert (Hk : old_default_keys c = Dict.keys e_old).
    { unfold old_default_keys. now rewrite Eo, Eold. }
    rewrite Hk in *.
    pose proof (table_clean_entry c _ "xc" e_new Ht Enew Hxc) as Hn.
    repeat split.
    + exact Enew.
    + apply wf_update, wf_mark_removed. reflexivity.
    + rewrite get_update_other by exact Hn. rewrite get_mark_removed.
      rewrite <- mem_existsb.
      destruct (Dict.mem "xc" e_old) eqn:E; [now apply mem_In in E|reflexivity].
    + intros k. rewrite mem_update.
      destruct (Dict.mem k e_new); [now right; left|]. cbn [orb].
      unfold Dict.mem. rewrite get_mark_removed.
      destruct (existsb (String.eqb k) (Dict.keys e_old)) eqn:E.
      * intros _. right; right. rewrite <- mem_existsb in E. now apply mem_In.
      * cbn. destruct (String.eqb_spec k "xc"); [now left | discriminate].
    + intros k d Hk'. now apply get_update_from.
  - cbn [rbind].
    destruct v as [| | | | new | |]; try (cbn; discriminate).
    cbn [str_lower rbind]. unfold xc_entry.
    destruct (Dict.get (Text.lower new) (xc_defaults c)) as [e_new|] eqn:Enew;
      [|cbn; discriminate].
    cbn [rbind]. intros [= <-]. exists new, e_new.
    pose proof (table_clean_entry c _ "xc" e_new Ht Enew Hxc) as Hn.
    repeat split.
    + exact Enew.
    + now apply wf_update.
    + now rewrite get_update_other by exact Hn.
    + intros k. rewrite mem_update.
      destruct (Dict.mem k e_new); [now right; left|]. cbn [orb].
      unfold Dict.mem. cbn.
      destruct (String.eqb_spec k "xc"); [now left | discriminate].
    + intros k d Hk'. now apply get_update_from.
Qed.


(** The keys of the dictionary [set_ispin_dict] returns. *)
Lemma set_ispin_dict_keys (c : Vasp) (val : pyval) (I : Dict.t pyval) :
  set_ispin_dict c val = Ok (Some I) ->
  Dict.wf I = true /\
  (forall k, Dict.mem k I = true -> In k ["ispin"; "magmom"; "lorbit"]).
Proof.
  unfold set_ispin_dict.
  destruct (is_none val).
  - intros [= <-]. unfold mark_removed. cbn [fold_left].
    destruct (Dict.mem "ispin" (parameters c)), (Dict.mem "magmom" (parameters c)),
      (Dict.mem "lorbit" (parameters c));
      (split; [reflexivity|]); intros k; unfold Dict.mem; cbn; intros H;
      key_cases k; cbn in H; try discriminate; auto.
  - destruct (py_eq val (VInt 1)).
    + intros [= <-].
      destruct (Dict.mem "magmom" (parameters c)), (Dict.mem "lorbit" (parameters c));
        (split; [reflexivity|]); intros k; unfold Dict.mem; cbn; intros H;
        key_cases k; cbn in H; try discriminate; auto.
    + destruct (py_eq val (VInt 2)); [|discriminate].
      destruct (Dict.mem "magmom" (parameters c)), (Dict.mem "lorbit" (parameters c));
        cbn [negb]; try destruct (resorted_magmoms c); cbn [rbind];
        try discriminate; intros [= <-];
        (split; [reflexivity|]); intros k; unfold Dict.mem; cbn; intros H;
        key_cases k; cbn in H; try discriminate; auto.
Qed.


(** What a successful [ldau_luj] expansion tells: no [setups] in the
    store, a species order in [self] afterwards, and a dictionary of the
    three keys. *)
Lemma set_ldau_luj_dict_inv (val : pyval) (c cA : Vasp) (L : Dict.t pyval) :
  set_ldau_luj_dict val c = (cA, Ok L) ->
  Dict.mem "setups" (parameters c) = false /\
  (cA = c \/ cA = sort_atoms c) /\
  ppp_list cA <> None /\
  Dict.wf L = true /\
  (forall k, Dict.mem k L = true -> In k ["ldaul"; "ldauu"; "ldauj"]).
Proof.
  unfold set_ldau_luj_dict, bind, get_state, lift, modify, ret.
  destruct (Dict.mem "setups" (parameters c)); [discriminate|].
  assert (Hkeys : forall (l u j : pyval) k,
            Dict.mem k [("ldaul", l); ("ldauu", u); ("ldauj", j)] = true ->
            In k ["ldaul"; "ldauu"; "ldauj"]).
  { intros l u j k. unfold Dict.mem. cbn. intros H.
    key_cases k; cbn in H; try discriminate; cbn; auto. }
  destruct (ppp_list c) as [ppp|] eqn:Ep.
  - destruct (is_none val); cbn [negb].
    + intros [= <- <-]. rewrite Ep. repeat split; auto; try discriminate. apply Hkeys.
    + unfold get_ppp_list. rewrite Ep.
      destruct (rmap (atom_type c) ppp) as [ts|]; [|discriminate].
      destruct (luj_column val "L" ts) as [l|]; [|discriminate].
      destruct (luj_column val "U" ts) as [u|]; [|discriminate].
      destruct (luj_column val "J" ts) as [j|]; [|discriminate].
      intros [= <- <-]. rewrite Ep. repeat split; auto; try discriminate. apply Hkeys.
  - destruct (is_none val); cbn [negb].
    + intros [= <- <-]. repeat split; auto; try discriminate. apply Hkeys.
    + unfold get_ppp_list. cbn [sort_atoms with_ppp_list ppp_list].
      destruct (rmap (atom_type (sort_atoms c)) (species_order c)) as [ts|];
        [|discriminate].
      destruct (luj_column val "L" ts) as [l|]; [|discriminate].
      destruct (luj_column val "U" ts) as [u|]; [|discriminate].
      destruct (luj_column val "J" ts) as [j|]; [|discriminate].
      intros [= <- <-]. repeat split; auto; try discriminate. apply Hkeys.
Qed.


Lemma rmap_ext {A B : Type} (f g : A -> result B) (l : list A) :
  (forall x, f x = g x) -> rmap f l = rmap g l.
Proof.
  intros H. induction l as [|x l IH]; [reflexivity|]. cbn. now rewrite H, IH.
Qed.


Lemma set_nsw_dict_keys (val : pyval) (N : Dict.t pyval) :
  set_nsw_dict val = Ok N ->
  Dict.wf N = true /\ (forall k, Dict.mem k N = true -> In k ["nsw"; "lwave"]).
Proof.
  unfold set_nsw_dict. destruct (py_gt_zero val) as [[|]|]; cbn [rbind];
    [| destruct (py_eq val (VInt 0)) |]; try discriminate;
    intros [= <-]; (split; [reflexivity|]); intros k; unfold Dict.mem; cbn;
    intros H; key_cases k; cbn in H; try discriminate; cbn; auto.
Qed.

Lemma expand_stage (key : string) (expander : pyval -> ST Vasp (option (Dict.t pyval)))
  (kwargs kwargs' : Dict.t pyval) (self self' : Vasp) :
  expand key expander kwargs self = (self', Ok kwargs') ->
  exists d,
    kwargs' = Dict.update kwargs d /\
    stage key kwargs d (fun v => expander v self = (self', Ok (Some d))) /\
    (Dict.get key kwargs = None -> self' = self).
Proof.
  intros H. apply expand_inv in H as [[Hg [-> ->]] | [val [d [Hg [He ->]]]]].
  - exists []. split; [reflexivity|]. split; [now left | reflexivity].
  - exists d. split; [reflexivity|]. split; [right; now exists val | congruence].
Qed.

Lemma call_set_xc_dict_inv (v : pyval) (self self' : Vasp) (d : Dict.t pyval) :
  call_set_xc_dict v self = (self', Ok (Some d)) <->
  self' = self /\ set_xc_dict self v = Ok d.
Proof.
  unfold call_set_xc_dict, bind, get_state, lift, ret.
  destruct (set_xc_dict self v); split; try (intros [= <- <-]; now split);
    intros [-> H]; try discriminate; now injection H as <-.
Qed.

Lemma call_set_ispin_dict_inv (v : pyval) (self self' : Vasp) (d : Dict.t pyval) :
  call_set_ispin_dict v self = (self', Ok (Some d)) <->
  self' = self /\ set_ispin_dict self v = Ok (Some d).
Proof.
  unfold call_set_ispin_dict, bind, get_state, lift.
  split; [intros [= <- ->]; now split | intros [-> ->]; reflexivity].
Qed.

Lemma call_set_ldau_luj_dict_inv (v : pyval) (self self' : Vasp) (d : Dict.t pyval) :
  call_set_ldau_luj_dict v self = (self', Ok (Some d)) <->
  set_ldau_luj_dict v self = (self', Ok d).
Proof.
  unfold call_set_ldau_luj_dict, bind, ret.
  destruct (set_ldau_luj_dict v self) as [s [a|e]]; split; intros H;
    try discriminate; now injection H as <- <-.
Qed.

Lemma call_set_nsw_dict_inv (v : pyval) (self self' : Vasp) (d : Dict.t pyval) :
  call_set_nsw_dict v self = (self', Ok (Some d)) <->
  self' = self /\ set_nsw_dict v = Ok d.
Proof.
  unfold call_set_nsw_dict, bind, lift, ret.
  destruct (set_nsw_dict v); split; try (intros [= <- <-]; now split);
    intros [-> H]; try discriminate; now injection H as <-.
Qed.

(** A call of [set] that returns, taken apart: the four dictionaries
    that were merged, the calculator [sc] the [ldau_luj] step left, and
    the store and changes of the base class loop. *)
Lemma set_inv (equal : comparison) (kwargs changed : Dict.t pyval) (self self1 : Vasp) :
  set equal kwargs self = (self1, Ok changed) ->
  exists X I L N sc p1,
    stage "xc" kwargs X (fun v => set_xc_dict self v = Ok X) /\
    stage "ispin" (Dict.update kwargs X) I
      (fun v => set_ispin_dict self v = Ok (Some I)) /\
    stage "ldau_luj" (Dict.update (Dict.update kwargs X) I) L
      (fun v => set_ldau_luj_dict v self = (sc, Ok L)) /\
    (Dict.get "ldau_luj" (Dict.update (Dict.update kwargs X) I) = None -> sc = self) /\
    stage "nsw" (Dict.update (Dict.update (Dict.update kwargs X) I) L) N
      (fun v => set_nsw_dict v = Ok N) /\
    Dict.mem "parameters"
      (Dict.update (Dict.update (Dict.update (Dict.update kwargs X) I) L) N) = false /\
    fold_each (set_parameter equal)
      (Dict.update (Dict.update (Dict.update (Dict.update kwargs X) I) L) N) [] sc
      = (with_parameters sc p1, Ok changed) /\
    (self1 = with_parameters sc p1 \/
     self1 = with_results (with_parameters sc p1) false).
Proof.
  unfold set. intros H.
  apply bind_inv_ok in H as [sa [k1 [H1 H]]].
  apply bind_inv_ok in H as [sb [k2 [H2 H]]].
  apply bind_inv_ok in H as [sc [k3 [H3 H]]].
  apply bind_inv_ok in H as [sd [k4 [H4 H]]].
  apply bind_inv_ok in H as [se [ch [H5 H6]]].
  pose proof (expand_xc_self _ _ _ _ H1) as ->.
  pose proof (expand_ispin_self _ _ _ _ H2) as ->.
  apply expand_stage in H1 as [X [-> [SX _]]].
  apply expand_stage in H2 as [I [-> [SI _]]].
  apply expand_stage in H3 as [L [-> [SL SLn]]].
  apply expand_stage in H4 as [N [-> [SN SNn]]].
  assert (sd = sc) as ->.
  { destruct SN as [[Hg _] | [v [_ Hv]]]; [now apply SNn|].
    now apply call_set_nsw_dict_inv in Hv as [-> _]. }
  exists X, I, L, N, sc.
  unfold FileIOCalculator_set in H5.
  destruct (Dict.mem "parameters" _) eqn:Ep in H5; [discriminate|].
  destruct (set_parameters_frame equal
              (Dict.update (Dict.update (Dict.update (Dict.update kwargs X) I) L) N) [] sc)
    as (p1 & Hp1 & _).
  rewrite H5 in Hp1. cbn [fst] in Hp1. subst se.
  exists p1. repeat split.
  - destruct SX as [? | [v [Hg Hv]]]; [now left|].
    right. exists v. split; [exact Hg|]. now apply call_set_xc_dict_inv in Hv.
  - destruct SI as [? | [v [Hg Hv]]]; [now left|].
    right. exists v. split; [exact Hg|]. now apply call_set_ispin_dict_inv in Hv.
  - destruct SL as [? | [v [Hg Hv]]]; [now left|].
    right. exists v. split; [exact Hg|]. now apply call_set_ldau_luj_dict_inv in Hv.
  - exact SLn.
  - destruct SN as [? | [v [Hg Hv]]]; [now left|].
    right. exists v. split; [exact Hg|]. now apply call_set_nsw_dict_inv in Hv.
  - exact Ep.
  - destruct ch; cbn in H6; injection H6 as _ <-; exact H5.
  - destruct ch; cbn in H6.
    + left. now injection H6 as <- _.
    + right. now injection H6 as <- _.
Qed.



Lemma stage_xc_facts (c : Vasp) (kwargs X : Dict.t pyval) :
  table_clean c = true ->
  stage "xc" kwargs X (fun v => set_xc_dict c v = Ok X) ->
  Dict.wf X = true /\
  (forall r, In r reserved_keys -> r <> "xc" -> Dict.mem r X = false) /\
  (forall k, Dict.mem k X = true -> Dict.mem "xc" kwargs = true).
Proof.
  intros Ht [[Hg ->] | [v [Hg Hv]]].
  - repeat split; intros; discriminate.
  - destruct (set_xc_dict_shape c v X Ht Hv) as (new & e_new & -> & He & Hwf & _ & Hm & _).
    split; [exact Hwf|]. split.
    + intros r Hr Hne. destruct (Dict.mem r X) eqn:E; [|reflexivity].
      apply Hm in E as [E | [E | E]].
      * contradiction.
      * now rewrite (table_clean_entry c _ r e_new Ht He Hr) in E.
      * now apply old_default_keys_clean in E.
    + intros k _. now apply get_some_mem in Hg.
Qed.

Lemma stage_ispin_facts (c : Vasp) (kwargs I : Dict.t pyval) :
  stage "ispin" kwargs I (fun v => set_ispin_dict c v = Ok (Some I)) ->
  Dict.wf I = true /\
  (forall k, Dict.mem k I = true -> In k ["ispin"; "magmom"; "lorbit"]).
Proof.
  intros [[Hg ->] | [v [Hg Hv]]].
  - split; [reflexivity | discriminate].
  - now apply set_ispin_dict_keys in Hv.
Qed.

Lemma stage_ldau_facts (c sc : Vasp) (kwargs L : Dict.t pyval) :
  stage "ldau_luj" kwargs L (fun v => set_ldau_luj_dict v c = (sc, Ok L)) ->
  (Dict.get "ldau_luj" kwargs = None -> sc = c) ->
  Dict.wf L = true /\
  (forall k, Dict.mem k L = true -> In k ["ldaul"; "ldauu"; "ldauj"]) /\
  (sc = c \/ sc = sort_atoms c).
Proof.
  intros [[Hg ->] | [v [Hg Hv]]] Hn.
  - split; [reflexivity|]. split; [discriminate | left; now apply Hn].
  - apply set_ldau_luj_dict_inv in Hv as (_ & Hsc & _ & Hwf & Hk). auto.
Qed.

Lemma stage_nsw_facts (kwargs N : Dict.t pyval) :
  stage "nsw" kwargs N (fun v => set_nsw_dict v = Ok N) ->
  Dict.wf N = true /\
  (forall k, Dict.mem k N = true -> In k ["nsw"; "lwave"]).
Proof.
  intros [[Hg ->] | [v [Hg Hv]]].
  - split; [reflexivity | discriminate].
  - now apply set_nsw_dict_keys in Hv.
Qed.








(** ** POTCAR *)

Lemma file_append_run (path content written : string) (fs : files) :
  Dict.get path fs = Some written ->
  file_append path content fs = (Dict.set path (written ++ content) fs, Ok tt).
Proof. intros H. unfold file_append, modify. now rewrite H. Qed.

Lemma set_get_same {A : Type} (k : string) (v : A) (d : Dict.t A) :
  Dict.get k d = Some v -> Dict.set k v d = d.
Proof.
  induction d as [|[k1 v1] d IH]; cbn; [discriminate|].
  destruct (String.eqb k k1); [now intros [= ->] | intros H; now rewrite IH].
Qed.

(** The loop over potentials that all exist appends them in order. *)
Lemma add_potentials_run (environ : Dict.t string) (dir fname : string)
  (ppp : list ppp_entry) (contents : list string) (written : string) (fs : files) :
  Dict.get "VASP_PP_PATH" environ = Some dir ->
  map (fun x => Dict.get (potential_path dir x) fs) ppp = map Some contents ->
  forallb (fun x => negb (String.eqb (potential_path dir x) fname)) ppp = true ->
  Dict.get fname fs = Some written ->
  for_each (add_potential environ fname) ppp fs =
    (Dict.set fname (written ++ cat contents) fs, Ok tt).
Proof.
  intros Henv. revert contents written fs.
  induction ppp as [|x ppp IH]; intros contents written fs Hc Hne Hw.
  - destruct contents; [|discriminate]. cbn.
    rewrite str_app_nil_r. unfold ret. now rewrite set_get_same.
  - destruct contents as [|c contents]; [discriminate|].
    cbn [map] in Hc. injection Hc as Hx Hc.
    cbn [forallb] in Hne. apply andb_true_iff in Hne as [Hxne Hne].
    apply negb_true_iff, String.eqb_neq in Hxne.
    cbn [for_each]. unfold bind at 1.
    assert (Hstep : add_potential environ fname x fs
                    = (Dict.set fname (written ++ c) fs, Ok tt)).
    { unfold add_potential, environ_getitem. rewrite Henv.
      unfold bind, lift, get_state. fold (potential_path dir x). rewrite Hx.
      now apply file_append_run. }
    rewrite Hstep.
    rewrite (IH contents (written ++ c)%string).
    + rewrite set_set. cbn [cat]. now rewrite str_app_assoc.
    + rewrite <- Hc. apply map_ext_in. intros y Hy.
      apply get_set_ne.
      rewrite forallb_forall in Hne. specialize (Hne y Hy).
      now apply negb_true_iff, String.eqb_neq in Hne.
    + exact Hne.
    + apply get_set_eq.
Qed.

(** X1: when the environment names the directory and every potential file
    of the species order is there, the POTCAR is replaced by their
    contents one after the other, in the order of [ppp_list]; no
    potential is the POTCAR itself. *)
Theorem write_potcar_concatenates (environ : Dict.t string) (self : Vasp)
  (fname : option string) (fs : files) (dir : string) (ppp : list ppp_entry)
  (contents : list string) :
  Dict.get "VASP_PP_PATH" environ = Some dir ->
  ppp_list self = Some ppp ->
  map (fun x => Dict.get (potential_path dir x) fs) ppp = map Some contents ->
  forallb (fun x => negb (String.eqb (potential_path dir x)
                            (default_path (calc_dir self) "POTCAR" fname))) ppp = true ->
  write_potcar environ self fname fs =
    (Dict.set (default_path (calc_dir self) "POTCAR" fname) (cat contents) fs, Ok tt).
Proof.
  intros Henv Hp Hc Hne. unfold write_potcar.
  unfold bind at 1, modify. unfold bind at 1, lift, get_ppp_list. rewrite Hp.
  rewrite (add_potentials_run environ dir _ ppp contents EmptyString); try assumption.
  - now rewrite set_set.
  - rewrite <- Hc. apply map_ext_in. intros y Hy. apply get_set_ne.
    rewrite forallb_forall in Hne. specialize (Hne y Hy).
    now apply negb_true_iff, String.eqb_neq in Hne.
  - apply get_set_eq.
Qed.

Lemma write_potcar_concatenates_witness :
  write_potcar example_environ (oxide_calc []) None oxide_files =
    (Dict.set (default_path (calc_dir (oxide_calc [])) "POTCAR" None)
       (cat ["PAW_PBE Fe"; "PAW_PBE O"]) oxide_files,
     Ok tt).
Proof.
  apply (write_potcar_concatenates example_environ (oxide_calc []) None oxide_files
           "/pp" iron_then_oxygen ["PAW_PBE Fe"; "PAW_PBE O"]); reflexivity.
Defined.

(** The loop stops at the first potential file that is not there. *)
Lemma add_potential_missing (environ : Dict.t string) (dir fname : string)
  (x : ppp_entry) (rest : list ppp_entry) (fs : files) :
  Dict.get "VASP_PP_PATH" environ = Some dir ->
  Dict.get (potential_path dir x) fs = None ->
  for_each (add_potential environ fname) (x :: rest) fs =
    (fs, Raise (potential_missing (potential_path dir x))).
Proof.
  intros Henv Hx. cbn [for_each]. apply bind_raise.
  unfold add_potential, environ_getitem. rewrite Henv.
  unfold bind, lift, get_state. fold (potential_path dir x). now rewrite Hx.
Qed.

Lemma for_each_app {S A : Type} (body : A -> ST S unit) (l1 l2 : list A) (s s1 : S) :
  for_each body l1 s = (s1, Ok tt) ->
  for_each body (l1 ++ l2) s = for_each body l2 s1.
Proof.
  revert s. induction l1 as [|x l1 IH]; intros s H; cbn in *.
  - now injection H as <-.
  - unfold bind in *. destruct (body x s) as [s' [[]|e]]; [now apply IH | discriminate].
Qed.

(** X2: when the potential files of the first species are there and the
    next one is missing, the write ends in the exception that names the
    missing file, and the POTCAR holds the potentials before it. *)
Theorem write_potcar_stops_at_missing (environ : Dict.t string) (self : Vasp)
  (fname : option string) (fs : files) (dir : string)
  (before after : list ppp_entry) (x : ppp_entry) (contents : list string) :
  Dict.get "VASP_PP_PATH" environ = Some dir ->
  ppp_list self = Some (before ++ x :: after)%list ->
  map (fun y => Dict.get (potential_path dir y) fs) before = map Some contents ->
  Dict.get (potential_path dir x) fs = None ->
  forallb (fun y => negb (String.eqb (potential_path dir y)
                            (default_path (calc_dir self) "POTCAR" fname)))
    (before ++ [x])%list = true ->
  write_potcar environ self fname fs =
    (Dict.set (default_path (calc_dir self) "POTCAR" fname) (cat contents) fs,
     Raise (potential_missing (potential_path dir x))).
Proof.
  intros Henv Hp Hc Hx Hne. unfold write_potcar.
  unfold bind at 1, modify. unfold bind at 1, lift, get_ppp_list. rewrite Hp.
  rewrite forallb_app in Hne. apply andb_true_iff in Hne as [Hb Hxne].
  cbn in Hxne. rewrite andb_true_r in Hxne.
  apply negb_true_iff, String.eqb_neq in Hxne.
  set (path := default_path (calc_dir self) "POTCAR" fname) in *.
  assert (Hrun : for_each (add_potential environ path) before
                   (Dict.set path EmptyString fs)
                 = (Dict.set path (cat contents) fs, Ok tt)).
  { rewrite (add_potentials_run environ dir _ before contents EmptyString);
      try assumption.
    - now rewrite set_set.
    - rewrite <- Hc. apply map_ext_in. intros y Hy. apply get_set_ne.
      rewrite forallb_forall in Hb. specialize (Hb y Hy).
      now apply negb_true_iff, String.eqb_neq in Hb.
    - apply get_set_eq. }
  rewrite (for_each_app _ _ _ _ _ Hrun).
  apply add_potential_missing; [exact Henv|].
  now rewrite get_set_ne.
Qed.

Lemma write_potcar_stops_at_missing_witness :
  write_potcar example_environ (oxide_calc []) None example_files =
    (Dict.set (default_path (calc_dir (oxide_calc [])) "POTCAR" None)
       (cat ["PAW_PBE Fe"]) example_files,
     Raise (potential_missing
              (potential_path "/pp"
                 {| ppp_key := SubStr "O"; ppp_file := "potpaw_PBE/O/POTCAR";
                    ppp_count := 2 |}))).
Proof.
  apply (write_potcar_stops_at_missing example_environ (oxide_calc []) None
           example_files "/pp"
           [{| ppp_key := SubStr "Fe"; ppp_file := "potpaw_PBE/Fe/POTCAR";
               ppp_count := 1 |}]
           []
           {| ppp_key := SubStr "O"; ppp_file := "potpaw_PBE/O/POTCAR"; ppp_count := 2 |}
           ["PAW_PBE Fe"]); reflexivity.
Defined.

(** Whatever the loop meets, it writes to the open file only. *)
Lemma add_potentials_frame (environ : Dict.t string) (fname : string)
  (ppp : list ppp_entry) (fs : files) (q : string) :
  (q <> fname ->
   Dict.get q (fst (for_each (add_potential environ fname) ppp fs)) = Dict.get q fs) /\
  (Dict.mem fname fs = true ->
   Dict.mem fname (fst (for_each (add_potential environ fname) ppp fs)) = true).
Proof.
  revert fs. induction ppp as [|x ppp IH]; intros fs; [split; auto|].
  cbn [for_each]. unfold bind.
  destruct (add_potential environ fname x fs) as [fs1 r] eqn:E.
  assert (Hstep : (q <> fname -> Dict.get q fs1 = Dict.get q fs) /\
                  (Dict.mem fname fs = true -> Dict.mem fname fs1 = true)).
  { unfold add_potential, bind, lift, get_state in E.
    destruct (environ_getitem environ "VASP_PP_PATH"); [|injection E as <- _; auto].
    destruct (Dict.get _ fs); [|injection E as <- _; auto].
    unfold file_append, modify in E. injection E as <- _.
    split; [intros Hq; now apply get_set_ne|].
    intros _. rewrite mem_set. now rewrite String.eqb_refl. }
  destruct Hstep as [Hq Hm].
  destruct r as [[]|e]; cbn [fst]; [|split; assumption].
  destruct (IH fs1) as [IHq IHm].
  split; intros H; [rewrite IHq, Hq | apply IHm, Hm]; auto.
Qed.

(** X3: in every case, failure included, the POTCAR exists after the call
    and no other file has changed. *)
Theorem write_potcar_touches_one_file (environ : Dict.t string) (self : Vasp)
  (fname : option string) (fs : files) (q : string) :
  Dict.mem (default_path (calc_dir self) "POTCAR" fname)
    (fst (write_potcar environ self fname fs)) = true /\
  (q <> default_path (calc_dir self) "POTCAR" fname ->
   Dict.get q (fst (write_potcar environ self fname fs)) = Dict.get q fs).
Proof.
  unfold write_potcar, bind, modify, lift.
  set (path := default_path (calc_dir self) "POTCAR" fname).
  assert (Hm : Dict.mem path (Dict.set path EmptyString fs) = true)
    by (rewrite mem_set; now rewrite String.eqb_refl).
  destruct (get_ppp_list self) as [ppp|e]; cbn [fst].
  - destruct (add_potentials_frame environ path ppp (Dict.set path EmptyString fs) q)
      as [Hq Hk].
    split; [now apply Hk|].
    intros H. rewrite Hq by exact H. now apply get_set_ne.
  - split; [exact Hm|]. intros H. now apply get_set_ne.
Qed.

(** ** KPOINTS: the explicit modes and the file *)

Lemma kpoints_count_explicit (p : Dict.t pyval) (kind : seq_kind) (points : list pyval)
  (shape : list nat) :
  Dict.get "kpts" p = Some (VSeq kind points) ->
  np_shape (VSeq kind points) = Some shape ->
  List.length shape <> 1%nat ->
  kpoints_count p = Ok (Some (Z.of_nat (List.length points))) /\
  (Z.of_nat (List.length points) =? 0) = false.
Proof.
  intros Hk Hs Hsh. split.
  - unfold kpoints_count, dict_get_or_none, dict_getitem.
    rewrite Hk. cbn [is_none]. rewrite Hs.
    destruct (Nat.eqb_spec (List.length shape) 1) as [E | _]; [contradiction | reflexivity].
  - destruct points; [|reflexivity].
    cbn in Hs. injection Hs as <-. now contradiction Hsh.
Qed.

(** X4: with [kpts_nintersections] set and an explicit list of points the
    file holds the comment, the intersections value as the count line,
    [Line-mode], the coordinate line chosen by the truth of
    [reciprocal], and one line with all the points; the number of points
    and of their fields is not examined. *)
Theorem write_kpoints_line_mode (self : Vasp) (fname : option string) (fs : files)
  (kind : seq_kind) (points : list pyval) (shape : list nat) (v : pyval) :
  Dict.get "kpts" (parameters self) = Some (VSeq kind points) ->
  np_shape (VSeq kind points) = Some shape ->
  List.length shape <> 1%nat ->
  Dict.get "kpts_nintersections" (parameters self) = Some v ->
  is_none v = false ->
  write_kpoints self fname fs =
    (Dict.set (default_path (calc_dir self) "KPOINTS" fname)
       (kpoints_comment ++ Text.line (py_str v) ++ Text.line "Line-mode"
        ++ Text.line (if py_truthy (dict_get_or_none "reciprocal" (parameters self))
                      then "Reciprocal" else "Cartesian")
        ++ Text.line (Text.join " " (map py_str points))) fs,
     Ok tt).
Proof.
  intros Hk Hs Hsh Hv Hn.
  destruct (kpoints_count_explicit _ _ _ _ Hk Hs Hsh) as [Hc Hz].
  assert (Hget : dict_get_or_none "kpts_nintersections" (parameters self) = v).
  { unfold dict_get_or_none. now rewrite Hv. }
  assert (Hm : kpoints_mode (parameters self) (Some (Z.of_nat (List.length points))) = Ml).
  { unfold kpoints_mode. now rewrite Hz, Hget, Hn. }
  unfold write_kpoints. unfold bind at 1, lift. rewrite Hc, Hm.
  unfold with_open_w, kpoints_points, dict_getitem. rewrite Hk, Hget.
  destruct (py_truthy (dict_get_or_none "reciprocal" (parameters self)));
    unfold for_each, write_point, bind, lift, py_iter, f_write, modify, ret;
    rewrite !str_app_assoc; reflexivity.
Qed.

Lemma write_kpoints_line_mode_witness :
  write_kpoints
    (example_calc [("kpts", VSeq KList [ints [0; 0; 0]; ints [1; 0; 0]; ints [1; 1; 0]]);
                   ("kpts_nintersections", VInt 10)])
    None [] =
    (Dict.set
       (default_path
          (calc_dir
             (example_calc [("kpts", VSeq KList [ints [0; 0; 0]; ints [1; 0; 0];
                                                 ints [1; 1; 0]]);
                            ("kpts_nintersections", VInt 10)]))
          "KPOINTS" None)
       (kpoints_comment ++ Text.line (py_str (VInt 10)) ++ Text.line "Line-mode"
        ++ Text.line "Cartesian"
        ++ Text.line (Text.join " "
                        (map py_str [ints [0; 0; 0]; ints [1; 0; 0]; ints [1; 1; 0]])))
       [],
     Ok tt).
Proof.
  apply (write_kpoints_line_mode
           (example_calc [("kpts", VSeq KList [ints [0; 0; 0]; ints [1; 0; 0];
                                               ints [1; 1; 0]]);
                          ("kpts_nintersections", VInt 10)])
           None [] KList [ints [0; 0; 0]; ints [1; 0; 0]; ints [1; 1; 0]]
           [3%nat; 3%nat] (VInt 10));
    (reflexivity || discriminate).
Defined.

(** X5: without [kpts_nintersections], an explicit list of points is written
    in the reciprocal mode when [reciprocal == True] and in the
    cartesian mode otherwise.  The count line is the number of points;
    with four points the block is one line holding the four, and with
    any other number the write ends in the validation error after the
    format line. *)
Theorem write_kpoints_explicit (self : Vasp) (fname : option string) (fs : files)
  (kind : seq_kind) (points : list pyval) (shape : list nat) :
  Dict.get "kpts" (parameters self) = Some (VSeq kind points) ->
  np_shape (VSeq kind points) = Some shape ->
  List.length shape <> 1%nat ->
  is_none (dict_get_or_none "kpts_nintersections" (parameters self)) = true ->
  write_kpoints self fname fs =
    if (List.length points =? 4)%nat then
      (Dict.set (default_path (calc_dir self) "KPOINTS" fname)
         (kpoints_comment ++ Text.line "4"
          ++ Text.line (if py_eq (dict_get_or_none "reciprocal" (parameters self))
                             (VBool true)
                        then "Reciprocal" else "Cartesian")
          ++ Text.line (Text.join " " (map py_str points))) fs,
       Ok tt)
    else
      (Dict.set (default_path (calc_dir self) "KPOINTS" fname)
         (kpoints_comment ++ Text.line (Text.of_Z (Z.of_nat (List.length points)))
          ++ Text.line (if py_eq (dict_get_or_none "reciprocal" (parameters self))
                             (VBool true)
                        then "Reciprocal" else "Cartesian")) fs,
       Raise (ValueError "Kpoint ERROR: weights must be provided")).
Proof.
  intros Hk Hs Hsh Hl.
  destruct (kpoints_count_explicit _ _ _ _ Hk Hs Hsh) as [Hc Hz].
  unfold write_kpoints. unfold bind at 1, lift. rewrite Hc.
  unfold kpoints_mode. rewrite Hz, Hl. cbn [negb].
  unfold with_open_w.
  destruct (py_eq (dict_get_or_none "reciprocal" (parameters self)) (VBool true)).
  - rewrite (bind_ok _ _ _ _ _ (f_write_run _ _)).
    rewrite (bind_ok _ _ _ _ _ (f_write_run _ _)).
    rewrite (bind_ok _ _ _ _ _ (f_write_run _ _)).
    unfold bind at 1.
    rewrite (kpoints_points_explicit _ Mr _ _ _ (or_intror eq_refl) Hk eq_refl).
    destruct (Nat.eqb_spec (List.length points) 4) as [E | E].
    + rewrite E. cbn [Z.of_nat Pos.of_succ_nat Pos.succ Z.eqb Pos.eqb].
      unfold for_each, write_point, bind, lift, py_iter, f_write, modify, ret.
      cbn [format_nkpts]. rewrite !str_app_assoc. reflexivity.
    + replace (Z.of_nat (List.length points) =? 4) with false
        by (symmetry; apply Z.eqb_neq; lia).
      cbn [format_nkpts]. rewrite !str_app_assoc. reflexivity.
  - rewrite (bind_ok _ _ _ _ _ (f_write_run _ _)).
    rewrite (bind_ok _ _ _ _ _ (f_write_run _ _)).
    rewrite (bind_ok _ _ _ _ _ (f_write_run _ _)).
    unfold bind at 1.
    rewrite (kpoints_points_explicit _ Mc _ _ _ (or_introl eq_refl) Hk eq_refl).
    destruct (Nat.eqb_spec (List.length points) 4) as [E | E].
    + rewrite E. cbn [Z.of_nat Pos.of_succ_nat Pos.succ Z.eqb Pos.eqb].
      unfold for_each, write_point, bind, lift, py_iter, f_write, modify, ret.
      cbn [format_nkpts]. rewrite !str_app_assoc. reflexivity.
    + replace (Z.of_nat (List.length points) =? 4) with false
        by (symmetry; apply Z.eqb_neq; lia).
      cbn [format_nkpts]. rewrite !str_app_assoc. reflexivity.
Qed.

Lemma write_kpoints_explicit_witness :
  write_kpoints
    (example_calc [("kpts", VSeq KList [ints [0; 0; 0; 1]; ints [1; 0; 0; 1]]);
                   ("reciprocal", VBool true)])
    None [] =
    (Dict.set
       (default_path
          (calc_dir
             (example_calc [("kpts", VSeq KList [ints [0; 0; 0; 1]; ints [1; 0; 0; 1]]);
                            ("reciprocal", VBool true)]))
          "KPOINTS" None)
       (kpoints_comment ++ Text.line (Text.of_Z (Z.of_nat 2)) ++ Text.line "Reciprocal")
       [],
     Raise (ValueError "Kpoint ERROR: weights must be provided")).
Proof.
  apply (write_kpoints_explicit
           (example_calc [("kpts", VSeq KList [ints [0; 0; 0; 1]; ints [1; 0; 0; 1]]);
                          ("reciprocal", VBool true)])
           None [] KList [ints [0; 0; 0; 1]; ints [1; 0; 0; 1]] [2%nat; 4%nat]);
    (reflexivity || discriminate).
Defined.

(** X6: a grid is written the same whatever [kpts_nintersections],
    [reciprocal] and the rest of the store hold: only [kpts], [gamma]
    and the path count. *)
Theorem write_kpoints_grid_ignores_flags (self self' : Vasp) (fname : option string)
  (fs : files) (kind : seq_kind) (items : list pyval) (n : nat) :
  Dict.get "kpts" (parameters self) = Some (VSeq kind items) ->
  np_shape (VSeq kind items) = Some [n] ->
  Dict.get "kpts" (parameters self') = Dict.get "kpts" (parameters self) ->
  Dict.get "gamma" (parameters self') = Dict.get "gamma" (parameters self) ->
  calc_dir self' = calc_dir self ->
  write_kpoints self' fname fs = write_kpoints self fname fs.
Proof.
  intros Hk Hs Hk' Hg Hd.
  rewrite Hk in Hk'.
  pose proof (kpoints_count_flat _ _ _ _ Hk Hs) as Hc.
  pose proof (kpoints_count_flat _ _ _ _ Hk' Hs) as Hc'.
  assert (Hgn : dict_get_or_none "gamma" (parameters self')
                = dict_get_or_none "gamma" (parameters self)).
  { unfold dict_get_or_none. now rewrite Hg. }
  assert (Hgi : dict_getitem "gamma" (parameters self')
                = dict_getitem "gamma" (parameters self)).
  { unfold dict_getitem. now rewrite Hg. }
  unfold write_kpoints. unfold bind at 1 3, lift. rewrite Hc, Hc', Hd.
  unfold kpoints_mode. cbn [Z.eqb]. rewrite Hgn.
  destruct (py_truthy (dict_get_or_none "gamma" (parameters self))) eqn:Et;
    unfold kpoints_points; rewrite Hk, Hk', Hgn, Et, ?Hgi; reflexivity.
Qed.

Lemma write_kpoints_grid_ignores_flags_witness :
  write_kpoints
    (example_calc [("reciprocal", VBool true); ("kpts", ints [4; 4; 4]);
                   ("kpts_nintersections", VInt 10)])
    None [] =
  write_kpoints (example_calc [("kpts", ints [4; 4; 4])]) None [].
Proof.
  apply (write_kpoints_grid_ignores_flags
           (example_calc [("kpts", ints [4; 4; 4])])
           (example_calc [("reciprocal", VBool true); ("kpts", ints [4; 4; 4]);
                          ("kpts_nintersections", VInt 10)])
           None [] KList [VInt 4; VInt 4; VInt 4] 3); reflexivity.
Defined.

(** ** The writers and the other files *)

Lemma appends_ret {A : Type} (a : A) : appends (ret a).
Proof. intros w. exists EmptyString. cbn. now rewrite str_app_nil_r. Qed.

Lemma appends_lift {A : Type} (r : result A) : appends (lift r).
Proof. intros w. exists EmptyString. cbn. now rewrite str_app_nil_r. Qed.

Lemma appends_f_write (text : string) : appends (f_write text).
Proof. intros w. now exists text. Qed.

Lemma appends_bind {A B : Type} (m : ST string A) (f : A -> ST string B) :
  appends m -> (forall a, appends (f a)) -> appends (bind m f).
Proof.
  intros Hm Hf w. unfold bind.
  destruct (Hm w) as [more1 H1].
  destruct (m w) as [w1 [a|e]]; cbn [fst] in *; subst w1.
  - destruct (Hf a (w ++ more1)%string) as [more2 H2].
    exists (more1 ++ more2)%string. now rewrite H2, str_app_assoc.
  - now exists more1.
Qed.

Lemma appends_for_each {A : Type} (body : A -> ST string unit) (l : list A) :
  (forall x, appends (body x)) -> appends (for_each body l).
Proof.
  intros Hb. induction l as [|x l IH]; cbn [for_each].
  - apply appends_ret.
  - apply appends_bind; [apply Hb | intros _; exact IH].
Qed.

Lemma appends_write_point (point : pyval) : appends (write_point point).
Proof.
  unfold write_point. apply appends_bind; [apply appends_lift|].
  intros xs. apply appends_f_write.
Qed.

Lemma appends_kpoints_points (p : Dict.t pyval) (MODE : kmode) :
  appends (kpoints_points p MODE).
Proof.
  unfold kpoints_points.
  destruct MODE;
    repeat first
      [ apply appends_ret | apply appends_lift | apply appends_f_write
      | apply appends_bind; [|intros ?]
      | match goal with |- appends (if ?b then _ else _) => destruct b end ].
Qed.

Lemma with_open_w_run (path : string) (body : ST string unit) (fs : files) :
  with_open_w path body fs =
    (Dict.set path (fst (body EmptyString)) fs, snd (body EmptyString)).
Proof. unfold with_open_w. now destruct (body EmptyString). Qed.

Lemma appends_kpoints_body (p : Dict.t pyval) (NKPTS : option Z) (MODE : kmode) :
  appends
    (match MODE with
     | Mc | Mk | Mm | Mg | Mr => f_write (Text.line (format_nkpts NKPTS))
     | Ml => f_write (Text.line (py_str (dict_get_or_none "kpts_nintersections" p)))
     end ;;;
     match MODE with
     | Mm => f_write (Text.line "Monkhorst-Pack")
     | Mg => f_write (Text.line "Gamma")
     | Mc | Mk => f_write (Text.line "Cartesian")
     | Ml => f_write (Text.line "Line-mode")
     | Mr => f_write (Text.line "Reciprocal")
     end ;;;
     points <- kpoints_points p MODE ;;
     for_each write_point points).
Proof.
  apply appends_bind; [destruct MODE; apply appends_f_write|].
  intros _. apply appends_bind; [destruct MODE; apply appends_f_write|].
  intros _. apply appends_bind; [apply appends_kpoints_points|].
  intros points. apply appends_for_each. apply appends_write_point.
Qed.

(** X7: when the count cannot be computed the files are as they were;
    otherwise the KPOINTS file is replaced by a text that starts with
    the comment line, also when the write ends in an error.  No other
    file changes in either case. *)
Theorem write_kpoints_touches_one_file (self : Vasp) (fname : option string)
  (fs : files) :
  (forall e, kpoints_count (parameters self) = Raise e ->
             write_kpoints self fname fs = (fs, Raise e)) /\
  (forall n, kpoints_count (parameters self) = Ok n ->
             exists more,
               Dict.get (default_path (calc_dir self) "KPOINTS" fname)
                 (fst (write_kpoints self fname fs)) = Some (kpoints_comment ++ more)) /\
  (forall q, q <> default_path (calc_dir self) "KPOINTS" fname ->
             Dict.get q (fst (write_kpoints self fname fs)) = Dict.get q fs).
Proof.
  assert (E : write_kpoints self fname fs =
              match kpoints_count (parameters self) with
              | Ok n =>
                  with_open_w (default_path (calc_dir self) "KPOINTS" fname)
                    (f_write (Text.line "KPOINTS created by Atomic Simulation Environment") ;;;
                     match kpoints_mode (parameters self) n with
                     | Mc | Mk | Mm | Mg | Mr => f_write (Text.line (format_nkpts n))
                     | Ml => f_write (Text.line (py_str (dict_get_or_none
                                                           "kpts_nintersections"
                                                           (parameters self))))
                     end ;;;
                     match kpoints_mode (parameters self) n with
                     | Mm => f_write (Text.line "Monkhorst-Pack")
                     | Mg => f_write (Text.line "Gamma")
                     | Mc | Mk => f_write (Text.line "Cartesian")
                     | Ml => f_write (Text.line "Line-mode")
                     | Mr => f_write (Text.line "Reciprocal")
                     end ;;;
                     points <- kpoints_points (parameters self)
                                 (kpoints_mode (parameters self) n) ;;
                     for_each write_point points) fs
              | Raise e => (fs, Raise e)
              end).
  { unfold write_kpoints. unfold bind at 1, lift.
    now destruct (kpoints_count (parameters self)). }
  rewrite E. clear E.
  destruct (kpoints_count (parameters self)) as [n|e].
  - split; [discriminate|]. rewrite with_open_w_run. cbn [fst].
    split.
    + intros n' _. unfold bind at 1. rewrite f_write_run.
      destruct (appends_kpoints_body (parameters self) n
                  (kpoints_mode (parameters self) n)
                  (EmptyString ++ Text.line "KPOINTS created by Atomic Simulation Environment")%string)
        as [more Hm].
      exists more. rewrite get_set_eq. f_equal. exact Hm.
    + intros q Hq. now apply get_set_ne.
  - split; [now intros e' [= <-]|]. split; [discriminate | reflexivity].
Qed.

(** ** INCAR: the file and the order of the store *)

Lemma appends_write_incar_item (self : Vasp) (item : string * pyval) :
  appends (write_incar_item self item).
Proof.
  intros w. rewrite write_incar_item_run.
  destruct (incar_line self item) as [l|e]; cbn [fst].
  - now exists l.
  - exists EmptyString. now rewrite str_app_nil_r.
Qed.

(** X8: the INCAR file is always replaced, by a text that starts with the
    comment line, also when a value cannot be rendered; no other file
    changes. *)
Theorem write_incar_touches_one_file (rank : string -> nat) (self : Vasp)
  (incar : option string) (fs : files) :
  (exists more,
     Dict.get (default_path (calc_dir self) "INCAR" incar)
       (fst (write_incar rank self incar fs)) = Some (incar_comment ++ more)) /\
  (forall q, q <> default_path (calc_dir self) "INCAR" incar ->
             Dict.get q (fst (write_incar rank self incar fs)) = Dict.get q fs).
Proof.
  rewrite write_incar_run. cbn [fst]. split.
  - unfold bind at 1. rewrite f_write_run.
    destruct (appends_for_each (write_incar_item self) (incar_items rank self)
                (appends_write_incar_item self) (EmptyString ++ incar_comment)%string)
      as [more Hm].
    exists more. rewrite get_set_eq. f_equal. exact Hm.
  - intros q Hq. now apply get_set_ne.
Qed.

(** Looking a key up does not depend on the order of a dictionary. *)
Lemma get_perm (p p' : Dict.t pyval) (k : string) :
  Dict.wf p = true -> Permutation p p' -> Dict.get k p' = Dict.get k p.
Proof.
  intros Hwf Hp.
  assert (Hwf' : Dict.wf p' = true).
  { apply wf_NoDup. apply wf_NoDup in Hwf.
    eapply Permutation_NoDup; [|exact Hwf]. now apply Permutation_map. }
  destruct (Dict.get k p) as [v|] eqn:E.
  - apply In_get; [exact Hwf'|]. apply (Permutation_in _ Hp). now apply get_In.
  - apply mem_false_get. apply mem_false_get in E.
    destruct (Dict.mem k p') eqn:E'; [|reflexivity].
    apply mem_In in E'.
    apply (Permutation_in _ (Permutation_sym (Permutation_map fst Hp))) in E'.
    apply mem_In in E'. congruence.
Qed.

(** ** [set]: failures, the cache, and what the expansions decide *)

Lemma expand_keeps_store (key : string)
  (expander : pyval -> ST Vasp (option (Dict.t pyval)))
  (kwargs : Dict.t pyval) (self self' : Vasp) (r : result (Dict.t pyval)) :
  (forall v s s' r', expander v s = (s', r') ->
                     parameters s' = parameters s /\ results s' = results s) ->
  expand key expander kwargs self = (self', r) ->
  parameters self' = parameters self /\ results self' = results self.
Proof.
  intros He. unfold expand.
  destruct (Dict.get key kwargs) as [v|]; [|intros [= <- _]; now split].
  unfold bind. destruct (expander v self) as [s1 [d|e]] eqn:E.
  - unfold lift. intros [= <- _]. now apply He in E.
  - intros [= <- _]. now apply He in E.
Qed.

Lemma set_ldau_luj_dict_keeps_store (val : pyval) (s s' : Vasp)
  (r : result (Dict.t pyval)) :
  set_ldau_luj_dict val s = (s', r) ->
  parameters s' = parameters s /\ results s' = results s.
Proof.
  unfold set_ldau_luj_dict, bind, get_state, lift, modify, ret.
  destruct (Dict.mem "setups" (parameters s)); [intros [= <- _]; now split|].
  destruct (ppp_list s) eqn:Ep; destruct (negb (is_none val));
    repeat match goal with
           | |- context [match ?x with Ok _ => _ | Raise _ => _ end] => destruct x
           end;
    intros [= <- _]; now split.
Qed.

Lemma expanders_keep_store :
  (forall v s s' r', call_set_xc_dict v s = (s', r') ->
                     parameters s' = parameters s /\ results s' = results s) /\
  (forall v s s' r', call_set_ispin_dict v s = (s', r') ->
                     parameters s' = parameters s /\ results s' = results s) /\
  (forall v s s' r', call_set_ldau_luj_dict v s = (s', r') ->
                     parameters s' = parameters s /\ results s' = results s) /\
  (forall v s s' r', call_set_nsw_dict v s = (s', r') ->
                     parameters s' = parameters s /\ results s' = results s).
Proof.
  repeat split;
    try (unfold call_set_xc_dict, call_set_ispin_dict, call_set_nsw_dict,
           bind, get_state, lift, ret in H;
         repeat match type of H with
                | context [match ?x with Ok _ => _ | Raise _ => _ end] => destruct x
                end;
         now injection H as <- _).
  - unfold call_set_ldau_luj_dict, bind, ret in H.
    destruct (set_ldau_luj_dict v s) as [s1 [d|e]] eqn:E; injection H as <- _;
      now apply set_ldau_luj_dict_keeps_store in E.
  - unfold call_set_ldau_luj_dict, bind, ret in H.
    destruct (set_ldau_luj_dict v s) as [s1 [d|e]] eqn:E; injection H as <- _;
      now apply set_ldau_luj_dict_keeps_store in E.
Qed.

(** [set] is its expansions followed by the base class and the reset. *)
Lemma set_after_expansions (equal : comparison) (kwargs : Dict.t pyval) (self : Vasp) :
  set equal kwargs self =
    (kwargs <- expansions kwargs ;;
     changed_parameters <- FileIOCalculator_set equal kwargs ;;
     match changed_parameters with
     | [] => ret changed_parameters
     | _ :: _ => reset ;;; ret changed_parameters
     end) self.
Proof.
  unfold set, expansions, bind.
  destruct (expand "xc" call_set_xc_dict kwargs self) as [s1 [k1|e]]; [|reflexivity].
  destruct (expand "ispin" call_set_ispin_dict k1 s1) as [s2 [k2|e]]; [|reflexivity].
  destruct (expand "ldau_luj" call_set_ldau_luj_dict k2 s2) as [s3 [k3|e]]; [|reflexivity].
  reflexivity.
Qed.

(** The expansions leave the store and the cached results alone,
    however they end. *)
Lemma expansions_keep_store (kwargs : Dict.t pyval) (self s : Vasp)
  (r : result (Dict.t pyval)) :
  expansions kwargs self = (s, r) ->
  parameters s = parameters self /\ results s = results self.
Proof.
  destruct expanders_keep_store as (Kx & Ki & Kl & Kn).
  unfold expansions. unfold bind at 1.
  destruct (expand "xc" call_set_xc_dict kwargs self) as [s1 [k1|e]] eqn:E1;
    apply (expand_keeps_store _ _ _ _ _ _ Kx) in E1 as [P1 R1];
    [|intros [= <- <-]; split; congruence].
  unfold bind at 1.
  destruct (expand "ispin" call_set_ispin_dict k1 s1) as [s2 [k2|e]] eqn:E2;
    apply (expand_keeps_store _ _ _ _ _ _ Ki) in E2 as [P2 R2];
    [|intros [= <- <-]; split; congruence].
  unfold bind at 1.
  destruct (expand "ldau_luj" call_set_ldau_luj_dict k2 s2) as [s3 [k3|e]] eqn:E3;
    apply (expand_keeps_store _ _ _ _ _ _ Kl) in E3 as [P3 R3];
    [|intros [= <- <-]; split; congruence].
  intros E4. apply (expand_keeps_store _ _ _ _ _ _ Kn) in E4 as [P4 R4].
  split; congruence.
Qed.

(** The cached results after [set], by outcome: an error, of the base
    class included, comes before the reset. *)
Lemma set_outcome (equal : comparison) (kwargs : Dict.t pyval) (self s : Vasp)
  (r : result (Dict.t pyval)) :
  set equal kwargs self = (s, r) ->
  match r with
  | Raise _ => results s = results self
  | Ok [] => results s = results self
  | Ok (_ :: _) => results s = false
  end.
Proof.
  rewrite set_after_expansions. unfold bind at 1.
  destruct (expansions kwargs self) as [s4 [k4|e]] eqn:E;
    apply expansions_keep_store in E as [P4 R4]; [|now intros [= <- <-]].
  unfold bind at 1, FileIOCalculator_set.
  destruct (Dict.mem "parameters" k4); [now intros [= <- <-]|].
  destruct (set_parameters_frame equal k4 [] s4) as (p & Hp & _).
  destruct (fold_each (set_parameter equal) k4 [] s4) as [s5 [ch|e]];
    cbn [fst] in Hp; subst s5.
  - destruct ch as [|c ch]; cbn; intros [= <- <-]; cbn; congruence.
  - now intros [= <- <-].
Qed.

(** X10: a call of [set] that ends in an error of one of the expansions
    leaves the parameter store and the cached results as they were: the
    expansions run before anything is stored, and [set] ends in their
    error without calling the base class. *)
Theorem set_failure_keeps_store (equal : comparison) (kwargs : Dict.t pyval)
  (self self1 : Vasp) (e : exn) :
  expansions kwargs self = (self1, Raise e) ->
  set equal kwargs self = (self1, Raise e) /\
  parameters self1 = parameters self /\ results self1 = results self.
Proof.
  intros H. split; [|exact (expansions_keep_store _ _ _ _ H)].
  rewrite set_after_expansions. unfold bind at 1. now rewrite H.
Qed.

Lemma set_failure_keeps_store_witness :
  set equal_through_arrays [("encut", VInt 500); ("nsw", VStr "many")]
    (example_calc [("encut", VInt 400)]) =
    (example_calc [("encut", VInt 400)],
     Raise (TypeError "'>' not supported between instances of str and int")) /\
  parameters (example_calc [("encut", VInt 400)]) =
    parameters (example_calc [("encut", VInt 400)]) /\
  results (example_calc [("encut", VInt 400)]) =
    results (example_calc [("encut", VInt 400)]).
Proof.
  apply (set_failure_keeps_store equal_through_arrays [("encut", VInt 500); ("nsw", VStr "many")]
           (example_calc [("encut", VInt 400)])).
  reflexivity.
Defined.

(** X11: a call of [set] that returns drops the cached results exactly when
    it reports a change: with an empty dictionary of changes the cache
    is as it was. *)
Theorem set_resets_on_change (equal : comparison) (kwargs changed : Dict.t pyval)
  (self self1 : Vasp) :
  set equal kwargs self = (self1, Ok changed) ->
  results self1 = match changed with
                  | [] => results self
                  | _ :: _ => false
                  end.
Proof.
  intros H. pose proof (set_outcome _ _ _ _ _ H) as Ho. now destruct changed.
Qed.

Lemma set_resets_on_change_witness :
  results (fst (set equal_through_arrays [("encut", VInt 400)]
                  (example_calc [("encut", VInt 400)]))) =
    results (example_calc [("encut", VInt 400)]) /\
  results (fst (set equal_through_arrays [("encut", VInt 500)]
                  (example_calc [("encut", VInt 400)]))) = false.
Proof.
  split.
  - apply (set_resets_on_change equal_through_arrays [("encut", VInt 400)] []
             (example_calc [("encut", VInt 400)])
             (fst (set equal_through_arrays [("encut", VInt 400)]
                     (example_calc [("encut", VInt 400)])))).
    vm_compute. reflexivity.
  - apply (set_resets_on_change equal_through_arrays [("encut", VInt 500)] [("encut", VInt 500)]
             (example_calc [("encut", VInt 400)])
             (fst (set equal_through_arrays [("encut", VInt 500)]
                     (example_calc [("encut", VInt 400)])))).
    vm_compute. reflexivity.
Defined.

(** ** [set]: which of the expansions and the keywords decides a parameter *)

Lemma stage_key_same (key : string) (ka kb d : Dict.t pyval) (run : pyval -> Prop) :
  Dict.get key ka = Dict.get key kb ->
  stage key ka d run -> stage key kb d run.
Proof. unfold stage. now intros ->. Qed.

(** A call of [set] over a clean table that returns: every expansion
    was decided by the keyword the call passed, and the store settles
    every keyword of the merged dictionary. *)
Lemma set_taken_apart (equal : comparison) (kwargs changed : Dict.t pyval)
  (self self1 : Vasp) :
  Dict.wf kwargs = true ->
  table_clean self = true ->
  set equal kwargs self = (self1, Ok changed) ->
  exists X I L N sc,
    stage "xc" kwargs X (fun v => set_xc_dict self v = Ok X) /\
    stage "ispin" kwargs I (fun v => set_ispin_dict self v = Ok (Some I)) /\
    stage "ldau_luj" kwargs L (fun v => set_ldau_luj_dict v self = (sc, Ok L)) /\
    stage "nsw" kwargs N (fun v => set_nsw_dict v = Ok N) /\
    (Dict.wf X = true /\ Dict.wf I = true /\ Dict.wf L = true /\ Dict.wf N = true) /\
    (forall k, Dict.mem k I = true -> In k ["ispin"; "magmom"; "lorbit"]) /\
    (forall k, Dict.mem k L = true -> In k ["ldaul"; "ldauu"; "ldauj"]) /\
    (forall k, Dict.mem k N = true -> In k ["nsw"; "lwave"]) /\
    (forall k v,
        Dict.get k (Dict.update (Dict.update (Dict.update (Dict.update kwargs X) I) L) N)
          = Some v ->
        settled equal (parameters self1) k v /\
        (Dict.mem k (parameters self) = false ->
         Dict.get k (parameters self1) = Some v)).
Proof.
  intros Hwf Ht H.
  apply set_inv in H
    as (X & I & L & N & sc & p1 & Sx & Si & Sl & Hsc & Sn & _ & Hloop & Hs1).
  destruct (stage_xc_facts _ _ _ Ht Sx) as (WX & RX & _).
  destruct (stage_ispin_facts _ _ _ Si) as (WI & KI).
  destruct (stage_ldau_facts _ _ _ _ Sl Hsc) as (WL & KL & Hsc').
  destruct (stage_nsw_facts _ _ Sn) as (WN & KN).
  assert (RX' : forall r, In r reserved_keys -> r <> "xc" ->
                          forall d, Dict.get r (Dict.update d X) = Dict.get r d).
  { intros r Hr Hne d. apply get_update_other. now apply RX. }
  assert (OI : forall r, ~ In r ["ispin"; "magmom"; "lorbit"] ->
                         forall d, Dict.get r (Dict.update d I) = Dict.get r d).
  { intros r Hr d. apply get_update_other.
    destruct (Dict.mem r I) eqn:E; [|reflexivity]. now apply KI in E. }
  assert (OL : forall r, ~ In r ["ldaul"; "ldauu"; "ldauj"] ->
                         forall d, Dict.get r (Dict.update d L) = Dict.get r d).
  { intros r Hr d. apply get_update_other.
    destruct (Dict.mem r L) eqn:E; [|reflexivity]. now apply KL in E. }
  exists X, I, L, N, sc.
  split; [exact Sx|]. split.
  { apply (stage_key_same _ _ _ _ _ (RX' "ispin" ltac:(cbn; tauto) ltac:(discriminate) _)).
    exact Si. }
  split.
  { refine (stage_key_same _ _ _ _ _ _ Sl).
    rewrite (OI "ldau_luj") by not_in_keys.
    apply RX'; [cbn; tauto | discriminate]. }
  split.
  { refine (stage_key_same _ _ _ _ _ _ Sn).
    rewrite (OL "nsw") by not_in_keys. rewrite (OI "nsw") by not_in_keys.
    apply RX'; [cbn; tauto | discriminate]. }
  split; [auto|]. split; [exact KI|]. split; [exact KL|]. split; [exact KN|].
  intros k v Hget.
  assert (Hp : parameters self1 = p1) by (destruct Hs1 as [-> | ->]; reflexivity).
  assert (Hsame : parameters sc = parameters self)
    by (destruct Hsc' as [-> | ->]; reflexivity).
  assert (Wk : Dict.wf (Dict.update (Dict.update (Dict.update (Dict.update kwargs X) I) L) N)
               = true) by (now repeat apply wf_update).
  destruct (set_parameters_ok equal _ _ _ _ _ Wk Hloop) as (_ & Hkeys & Hnew).
  cbn [parameters with_parameters] in Hkeys, Hnew. rewrite Hp. split.
  - destruct (Hkeys k v Hget) as [[Hs _] | (w & _ & Hw & Heq)].
    + exists v. split; [exact Hs | now left].
    + exists w. split; [exact Hw | now right].
  - intros Hm. apply (Hnew k v Hget). now rewrite Hsame.
Qed.
Lemma py_eq_two (v : pyval) :
  py_eq v (VInt 2) = true -> is_none v = false /\ py_eq v (VInt 1) = false.
Proof.
  intros H.
  assert (Hq : exists q, num_of v = Some q /\ Qeq_bool q (inject_Z 2) = true).
  { destruct v; cbn in H; try discriminate; eexists; (split; [reflexivity|]);
      exact H. }
  destruct Hq as (q & Hn & Hq).
  split; [destruct v; cbn in Hn; try discriminate; reflexivity|].
  assert (E : py_eq v (VInt 1) = Qeq_bool q (inject_Z 1)).
  { destruct v; cbn in Hn; try discriminate; injection Hn as <-; reflexivity. }
  rewrite E. destruct (Qeq_bool q (inject_Z 1)) eqn:E1; [|reflexivity].
  apply Qeq_bool_iff in Hq, E1. rewrite Hq in E1. discriminate E1.
Qed.

(** X12: after a call of [set] with the keyword [nsw] that returns, the store
    is settled on the [lwave] the expansion decides, whatever [lwave]
    the call passed: true for a positive number of steps, false
    otherwise.  Settled: the store holds that value, or a value it had
    that the comparison of the base class finds equal to it; a store
    that had no [lwave] holds that value. *)
Theorem set_nsw_decides_lwave (equal : comparison) (kwargs changed : Dict.t pyval)
  (self self1 : Vasp) (v : pyval) :
  Dict.wf kwargs = true ->
  table_clean self = true ->
  Dict.get "nsw" kwargs = Some v ->
  set equal kwargs self = (self1, Ok changed) ->
  exists positive,
    py_gt_zero v = Ok positive /\
    settled equal (parameters self1) "nsw" v /\
    settled equal (parameters self1) "lwave" (VBool positive) /\
    (Dict.mem "lwave" (parameters self) = false ->
     Dict.get "lwave" (parameters self1) = Some (VBool positive)).
Proof.
  intros Hwf Ht Hv H.
  destruct (set_taken_apart _ _ _ _ _ Hwf Ht H)
    as (X & I & L & N & sc & _ & _ & _ & Sn & (_ & _ & _ & WN) & _ & _ & _ & Hst).
  destruct Sn as [[Hn _] | (v' & Hv' & Hrun)]; [congruence|].
  assert (v' = v) as -> by congruence.
  unfold set_nsw_dict in Hrun.
  destruct (py_gt_zero v) as [positive|e]; [|discriminate]. cbn in Hrun.
  exists positive. split; [reflexivity|].
  assert (HN : N = [("nsw", v); ("lwave", VBool positive)]).
  { destruct positive; [|destruct (py_eq v (VInt 0))]; now injection Hrun as <-. }
  subst N.
  split; [apply Hst; now rewrite get_update by exact WN|].
  split; apply Hst; now rewrite get_update by exact WN.
Qed.

Lemma set_nsw_decides_lwave_witness :
  exists positive,
    py_gt_zero (VInt 0) = Ok positive /\
    settled equal_through_arrays
      (parameters (fst (set equal_through_arrays [("nsw", VInt 0); ("lwave", VBool true)]
                          (example_calc [])))) "nsw" (VInt 0) /\
    settled equal_through_arrays
      (parameters (fst (set equal_through_arrays [("nsw", VInt 0); ("lwave", VBool true)]
                          (example_calc [])))) "lwave" (VBool positive) /\
    (Dict.mem "lwave" (parameters (example_calc [])) = false ->
     Dict.get "lwave"
       (parameters (fst (set equal_through_arrays [("nsw", VInt 0); ("lwave", VBool true)]
                           (example_calc [])))) = Some (VBool positive)).
Proof.
  apply (set_nsw_decides_lwave equal_through_arrays [("nsw", VInt 0); ("lwave", VBool true)]
           (match snd (set equal_through_arrays [("nsw", VInt 0); ("lwave", VBool true)]
                         (example_calc [])) with
            | Ok changed => changed
            | Raise _ => []
            end)
           (example_calc [])); try (vm_compute; reflexivity).
Defined.

(** X13: a call of [set] with [ispin] equal to 2 on a store without [magmom]
    that returns stores the moments of the atoms in the resorted order,
    also when the call passed a [magmom] of its own. *)
Theorem set_ispin_2_takes_the_atoms_moments (equal : comparison)
  (kwargs changed : Dict.t pyval) (self self1 : Vasp) (v : pyval) :
  Dict.wf kwargs = true ->
  table_clean self = true ->
  Dict.get "ispin" kwargs = Some v ->
  py_eq v (VInt 2) = true ->
  Dict.mem "magmom" (parameters self) = false ->
  set equal kwargs self = (self1, Ok changed) ->
  exists ms,
    resorted_magmoms self = Ok ms /\
    Dict.get "magmom" (parameters self1) = Some (VSeq KList ms).
Proof.
  intros Hwf Ht Hv H2 Hm H.
  destruct (set_taken_apart _ _ _ _ _ Hwf Ht H)
    as (X & I & L & N & sc & _ & Si & _ & _ & (_ & WI & WL & WN) & _ & KL & KN & Hst).
  destruct Si as [[Hn _] | (v' & Hv' & Hrun)]; [congruence|].
  assert (v' = v) as -> by congruence.
  destruct (py_eq_two v H2) as [Hnone H1].
  unfold set_ispin_dict in Hrun. rewrite Hnone, H1, H2, Hm in Hrun. cbn in Hrun.
  destruct (resorted_magmoms self) as [ms|e]; [|discriminate]. cbn in Hrun.
  exists ms. split; [reflexivity|]. apply Hst; [|exact Hm].
  rewrite (get_update_other _ _ N), (get_update_other _ _ L).
  - rewrite get_update by exact WI.
    destruct (Dict.mem "lorbit" (parameters self));
      cbn in Hrun; injection Hrun as <-; reflexivity.
  - destruct (Dict.mem "magmom" L) eqn:E; [|reflexivity]. apply KL in E. cbn in E. intuition discriminate.
  - destruct (Dict.mem "magmom" N) eqn:E; [|reflexivity]. apply KN in E. cbn in E. intuition discriminate.
Qed.

Lemma set_ispin_2_takes_the_atoms_moments_witness :
  exists ms,
    resorted_magmoms (example_calc []) = Ok ms /\
    Dict.get "magmom"
      (parameters (fst (set equal_through_arrays [("ispin", VInt 2); ("magmom", ints [5])]
                          (example_calc [])))) = Some (VSeq KList ms).
Proof.
  apply (set_ispin_2_takes_the_atoms_moments equal_through_arrays
           [("ispin", VInt 2); ("magmom", ints [5])]
           (match snd (set equal_through_arrays [("ispin", VInt 2); ("magmom", ints [5])]
                         (example_calc [])) with
            | Ok changed => changed
            | Raise _ => []
            end)
           (example_calc []) _ (VInt 2)); try (vm_compute; reflexivity).
Defined.

(** X14: a call of [set] with the keyword [xc] that returns settles the
    store on every assignment of the defaults of the new method, also
    where the call passed the same key with another value; [ldaul],
    [ldauu], [ldauj] and [lwave] apart, which the later expansions may
    decide.  Settled: the store holds the value of the defaults, or a
    value it had that the comparison of the base class finds equal to
    it; at a key the store did not have it holds the value of the
    defaults. *)
Theorem set_xc_defaults_win (equal : comparison) (kwargs changed : Dict.t pyval)
  (self self1 : Vasp) (new k : string) (e_new : Dict.t pyval) (w : pyval) :
  Dict.wf kwargs = true ->
  table_clean self = true ->
  Dict.get "xc" kwargs = Some (VStr new) ->
  Dict.get (Text.lower new) (xc_defaults self) = Some e_new ->
  Dict.wf e_new = true ->
  Dict.get k e_new = Some w ->
  ~ In k ["ldaul"; "ldauu"; "ldauj"; "lwave"] ->
  set equal kwargs self = (self1, Ok changed) ->
  settled equal (parameters self1) k w /\
  (Dict.mem k (parameters self) = false -> Dict.get k (parameters self1) = Some w).
Proof.
  intros Hwf Ht Hv He Hwe Hk Hout H.
  destruct (set_taken_apart _ _ _ _ _ Hwf Ht H)
    as (X & I & L & N & sc & Sx & _ & _ & _ & _ & KI & KL & KN & Hst).
  destruct Sx as [[Hn _] | (v' & Hv' & Hrun)]; [congruence|].
  assert (v' = VStr new) as -> by congruence.
  destruct (set_xc_dict_shape _ _ _ Ht Hrun)
    as (new' & e' & [= <-] & He' & WX & _ & _ & Hfrom).
  assert (e' = e_new) as -> by congruence.
  assert (Hmem : Dict.mem k e_new = true) by (now apply get_some_mem in Hk).
  assert (Hclean : forall r, In r reserved_keys -> k <> r).
  { intros r Hr ->. now rewrite (table_clean_entry self _ r e_new Ht He Hr) in Hmem. }
  apply Hst.
  rewrite (get_update_other _ _ N), (get_update_other _ _ L), (get_update_other _ _ I).
  - rewrite get_update by exact WX.
    rewrite (Hfrom k [] Hmem), get_update by exact Hwe. now rewrite Hk.
  - destruct (Dict.mem k I) eqn:E; [|reflexivity]. apply KI in E. exfalso.
    cbn in E. destruct E as [E | [E | [E | []]]]; symmetry in E;
      revert E; apply Hclean; cbn; tauto.
  - destruct (Dict.mem k L) eqn:E; [|reflexivity]. apply KL in E. exfalso.
    apply Hout. cbn in *. tauto.
  - destruct (Dict.mem k N) eqn:E; [|reflexivity]. apply KN in E. exfalso.
    cbn in E. destruct E as [E | [E | []]].
    + symmetry in E. revert E. apply Hclean. cbn; tauto.
    + apply Hout. cbn. tauto.
Qed.

Lemma set_xc_defaults_win_witness :
  settled equal_through_arrays
    (parameters (fst (set equal_through_arrays [("xc", VStr "RPBE"); ("gga", VStr "PE")]
                        (example_calc [])))) "gga" (VStr "RP") /\
  (Dict.mem "gga" (parameters (example_calc [])) = false ->
   Dict.get "gga"
     (parameters (fst (set equal_through_arrays [("xc", VStr "RPBE"); ("gga", VStr "PE")]
                         (example_calc [])))) = Some (VStr "RP")).
Proof.
  apply (set_xc_defaults_win equal_through_arrays [("xc", VStr "RPBE"); ("gga", VStr "PE")]
           (match snd (set equal_through_arrays [("xc", VStr "RPBE"); ("gga", VStr "PE")]
                         (example_calc [])) with
            | Ok changed => changed
            | Raise _ => []
            end)
           (example_calc []) _ "RPBE" "gga" [("pp", VStr "LDA"); ("gga", VStr "RP")]).
  - reflexivity.
  - reflexivity.
  - reflexivity.
  - reflexivity.
  - reflexivity.
  - reflexivity.
  - not_in_keys.
  - vm_compute. reflexivity.
Defined.

(** X15: a call of [set] without the keyword [xc] that returns leaves every
    parameter it was not given as it was in the store, the eight
    parameters apart that the expansions of [ispin], [ldau_luj] and
    [nsw] may assign. *)
Theorem set_leaves_the_rest (equal : comparison) (kwargs changed : Dict.t pyval)
  (self self1 : Vasp) (k : string) :
  Dict.mem "xc" kwargs = false ->
  Dict.mem k kwargs = false ->
  ~ In k ["ispin"; "magmom"; "lorbit"; "ldaul"; "ldauu"; "ldauj"; "nsw"; "lwave"] ->
  set equal kwargs self = (self1, Ok changed) ->
  Dict.get k (parameters self1) = Dict.get k (parameters self).
Proof.
  intros Hxc Hk Hout H.
  apply set_inv in H
    as (X & I & L & N & sc & p1 & Sx & Si & Sl & Hsc & Sn & _ & Hloop & Hs1).
  destruct (stage_ispin_facts _ _ _ Si) as (_ & KI).
  destruct (stage_ldau_facts _ _ _ _ Sl Hsc) as (_ & KL & Hsc').
  destruct (stage_nsw_facts _ _ Sn) as (_ & KN).
  assert (HX : X = []).
  { destruct Sx as [[_ ->] | (v & Hv & _)]; [reflexivity|].
    apply get_some_mem in Hv. congruence. }
  subst X.
  assert (Hp : parameters self1 = p1) by (destruct Hs1 as [-> | ->]; reflexivity).
  assert (Hsame : parameters sc = parameters self).
  { destruct Hsc' as [-> | ->]; reflexivity. }
  destruct (set_parameters_frame equal
              (Dict.update (Dict.update (Dict.update (Dict.update kwargs []) I) L) N) [] sc)
    as (p & Hfp & Hframe).
  rewrite Hloop in Hfp. cbn [fst] in Hfp.
  assert (p = p1) as -> by (now apply (f_equal parameters) in Hfp).
  rewrite Hp, <- Hsame. apply Hframe.
  rewrite !mem_update. cbn [Dict.update]. rewrite Hk.
  destruct (Dict.mem k N) eqn:EN; [apply KN in EN; exfalso; apply Hout; cbn in *; tauto|].
  destruct (Dict.mem k L) eqn:EL; [apply KL in EL; exfalso; apply Hout; cbn in *; tauto|].
  destruct (Dict.mem k I) eqn:EI; [apply KI in EI; exfalso; apply Hout; cbn in *; tauto|].
  reflexivity.
Qed.

Lemma set_leaves_the_rest_witness :
  Dict.get "encut"
    (parameters (fst (set equal_through_arrays [("nsw", VInt 5); ("ispin", VInt 2)]
                        (example_calc [("encut", VInt 400)])))) =
  Dict.get "encut" (parameters (example_calc [("encut", VInt 400)])).
Proof.
  apply (set_leaves_the_rest equal_through_arrays [("nsw", VInt 5); ("ispin", VInt 2)]
           (match snd (set equal_through_arrays [("nsw", VInt 5); ("ispin", VInt 2)]
                         (example_calc [("encut", VInt 400)])) with
            | Ok changed => changed
            | Raise _ => []
            end)
           (example_calc [("encut", VInt 400)])).
  - reflexivity.
  - reflexivity.
  - not_in_keys.
  - vm_compute. reflexivity.
Defined.

(** ** The per-species tables of [set_rwigs_dict] and [set_ldau_luj_dict] *)

Lemma rmap_Forall2 {A B : Type} (f : A -> result B) (l : list A) (ys : list B) :
  Forall2 (fun x y => f x = Ok y) l ys -> rmap f l = Ok ys.
Proof.
  induction 1 as [|x y l ys Hx _ IH]; [reflexivity|]. cbn. now rewrite Hx, IH.
Qed.

Lemma rmap_stops {A B : Type} (f : A -> result B) (before after : list A) (x : A)
  (ys : list B) (e : exn) :
  Forall2 (fun x y => f x = Ok y) before ys ->
  f x = Raise e ->
  rmap f (before ++ x :: after)%list = Raise e.
Proof.
  induction 1 as [|x' y l ys' Hx _ IH]; intros He; cbn.
  - now rewrite He.
  - now rewrite Hx, IH.
Qed.

Lemma getitem_perm (table table' : Dict.t pyval) (key : subscript) :
  Dict.wf table = true ->
  Permutation table table' ->
  py_getitem (VDict table') key = py_getitem (VDict table) key.
Proof.
  intros Hwf Hp. destruct key as [s|i]; cbn; [|reflexivity].
  now rewrite (get_perm table table' s Hwf Hp).
Qed.

(** X16: with the list of potentials in place and a radius for every species
    of it, [set_rwigs_dict] returns the radii in the order of the
    potentials, one per potential, and assigns nothing else. *)
Theorem set_rwigs_dict_in_potcar_order (self : Vasp) (table : Dict.t pyval)
  (ppp : list ppp_entry) (rs : list pyval) :
  ppp_list self = Some ppp ->
  Forall2 (fun x r => exists sym, ppp_key x = SubStr sym /\ Dict.get sym table = Some r)
    ppp rs ->
  set_rwigs_dict self (VDict table) = Ok [("rwigs", VSeq KList rs)] /\
  List.length rs = List.length ppp.
Proof.
  intros Hp Hall. split; [|symmetry; exact (Forall2_length Hall)].
  unfold set_rwigs_dict, get_ppp_list. rewrite Hp. cbn.
  rewrite (rmap_Forall2 _ ppp rs); [reflexivity|].
  eapply Forall2_impl; [|exact Hall].
  intros x r (sym & -> & Hr). cbn. now rewrite Hr.
Qed.

Lemma set_rwigs_dict_in_potcar_order_witness :
  set_rwigs_dict (oxide_calc [])
    (VDict [("O", VFloat (7 # 10) "0.7"); ("Fe", VFloat (13 # 10) "1.3")]) =
    Ok [("rwigs", VSeq KList [VFloat (13 # 10) "1.3"; VFloat (7 # 10) "0.7"])] /\
  List.length [VFloat (13 # 10) "1.3"; VFloat (7 # 10) "0.7"] =
    List.length iron_then_oxygen.
Proof.
  apply (set_rwigs_dict_in_potcar_order (oxide_calc [])
           [("O", VFloat (7 # 10) "0.7"); ("Fe", VFloat (13 # 10) "1.3")]
           iron_then_oxygen).
  - reflexivity.
  - repeat constructor; eexists; split; reflexivity.
Defined.

(** X17: a species of the list of potentials without a radius in the table
    stops [set_rwigs_dict] with the [KeyError] of the first such species
    in the order of the potentials. *)
Theorem set_rwigs_dict_stops_at_missing (self : Vasp) (table : Dict.t pyval)
  (before after : list ppp_entry) (x : ppp_entry) (sym : string) (rs : list pyval) :
  ppp_list self = Some (before ++ x :: after)%list ->
  Forall2 (fun x r => exists sym, ppp_key x = SubStr sym /\ Dict.get sym table = Some r)
    before rs ->
  ppp_key x = SubStr sym ->
  Dict.get sym table = None ->
  set_rwigs_dict self (VDict table) = Raise (KeyError sym).
Proof.
  intros Hp Hall Hx Hnone.
  unfold set_rwigs_dict, get_ppp_list. rewrite Hp. cbn.
  rewrite (rmap_stops _ before after x rs (KeyError sym)); [reflexivity| |].
  - eapply Forall2_impl; [|exact Hall].
    intros y r (s & -> & Hr). cbn. now rewrite Hr.
  - rewrite Hx. cbn. now rewrite Hnone.
Qed.

Lemma set_rwigs_dict_stops_at_missing_witness :
  set_rwigs_dict (oxide_calc []) (VDict [("Fe", VFloat (13 # 10) "1.3")]) =
    Raise (KeyError "O").
Proof.
  apply (set_rwigs_dict_stops_at_missing (oxide_calc []) [("Fe", VFloat (13 # 10) "1.3")]
           [{| ppp_key := SubStr "Fe"; ppp_file := "potpaw_PBE/Fe/POTCAR"; ppp_count := 1 |}]
           []
           {| ppp_key := SubStr "O"; ppp_file := "potpaw_PBE/O/POTCAR"; ppp_count := 2 |}
           "O" [VFloat (13 # 10) "1.3"]).
  - reflexivity.
  - repeat constructor; eexists; split; reflexivity.
  - reflexivity.
  - reflexivity.
Defined.

Lemma luj_column_perm (table table' : Dict.t pyval) (field : string)
  (atom_types : list string) :
  Dict.wf table = true ->
  Permutation table table' ->
  luj_column (VDict table') field atom_types = luj_column (VDict table) field atom_types.
Proof.
  intros Hwf Hp. unfold luj_column.
  rewrite (rmap_ext _ (fun sym => let? row := py_getitem (VDict table) (SubStr sym) in
                                  py_getitem row (SubStr field))); [reflexivity|].
  intros sym. now rewrite (getitem_perm table table' _ Hwf Hp).
Qed.

Lemma luj_column_rows {R : Type} (table : Dict.t pyval) (field : string)
  (types : list string) (pick : R -> pyval) (rows : list R) :
  Forall2 (fun sym luj =>
             exists row, Dict.get sym table = Some row /\
                         py_getitem row (SubStr field) = Ok (pick luj))
    types rows ->
  luj_column (VDict table) field types = Ok (VSeq KList (map pick rows)).
Proof.
  intros H. unfold luj_column.
  rewrite (rmap_Forall2 _ types (map pick rows)); [reflexivity|].
  induction H as [|sym luj types' rows' (row & Hrow & Hf) _ IH]; cbn; constructor.
  - cbn. now rewrite Hrow.
  - exact IH.
Qed.

(** X18: the order of the entries of the table of radii does not matter to
    [set_rwigs_dict]: the value it returns or the error it raises is the
    same. *)
Theorem set_rwigs_dict_ignores_table_order (self : Vasp) (table table' : Dict.t pyval) :
  Dict.wf table = true ->
  Permutation table table' ->
  set_rwigs_dict self (VDict table') = set_rwigs_dict self (VDict table).
Proof.
  intros Hwf Hp. unfold set_rwigs_dict. cbn.
  destruct (get_ppp_list self) as [ppp|e]; [|reflexivity]. cbn.
  rewrite (rmap_ext _ (fun x => py_getitem (VDict table) (ppp_key x))); [reflexivity|].
  intros x. now apply getitem_perm.
Qed.

Lemma set_rwigs_dict_ignores_table_order_witness :
  set_rwigs_dict (oxide_calc [])
    (VDict [("Fe", VFloat (13 # 10) "1.3"); ("O", VFloat (7 # 10) "0.7")]) =
  set_rwigs_dict (oxide_calc [])
    (VDict [("O", VFloat (7 # 10) "0.7"); ("Fe", VFloat (13 # 10) "1.3")]).
Proof.
  apply (set_rwigs_dict_ignores_table_order (oxide_calc [])).
  - reflexivity.
  - apply perm_swap.
Defined.

(** X19: with the list of potentials in place, no [setups] in the store and
    a row with [L], [U] and [J] for the species of every potential,
    [set_ldau_luj_dict] returns three lists in the order of the
    potentials, the entries of one potential at one index, and leaves
    the calculator as it is. *)
Theorem set_ldau_luj_dict_columns (self : Vasp) (table : Dict.t pyval)
  (ppp : list ppp_entry) (rows : list (pyval * pyval * pyval)) :
  Dict.mem "setups" (parameters self) = false ->
  ppp_list self = Some ppp ->
  Forall2 (fun x luj =>
             exists sym row,
               atom_type self x = Ok sym /\
               Dict.get sym table = Some row /\
               py_getitem row (SubStr "L") = Ok (fst (fst luj)) /\
               py_getitem row (SubStr "U") = Ok (snd (fst luj)) /\
               py_getitem row (SubStr "J") = Ok (snd luj))
    ppp rows ->
  set_ldau_luj_dict (VDict table) self =
    (self, Ok [("ldaul", VSeq KList (map (fun luj => fst (fst luj)) rows));
               ("ldauu", VSeq KList (map (fun luj => snd (fst luj)) rows));
               ("ldauj", VSeq KList (map snd rows))]).
Proof.
  intros Hs Hp Hall.
  assert (Htypes : exists types,
             rmap (atom_type self) ppp = Ok types /\
             Forall2 (fun sym luj =>
                        exists row,
                          Dict.get sym table = Some row /\
                          py_getitem row (SubStr "L") = Ok (fst (fst luj)) /\
                          py_getitem row (SubStr "U") = Ok (snd (fst luj)) /\
                          py_getitem row (SubStr "J") = Ok (snd luj)) types rows).
  { clear Hp. induction Hall as [|x luj ppp rows (sym & row & Hx & Hrow) _ (types & Ht & IH)].
    - exists []. split; [reflexivity | constructor].
    - exists (sym :: types). split; [cbn; now rewrite Hx, Ht|].
      constructor; [now exists row | exact IH]. }
  destruct Htypes as (types & Ht & Hrows).
  unfold set_ldau_luj_dict, bind, get_state, lift, ret. rewrite Hs, Hp. cbn.
  unfold get_ppp_list. rewrite Hp, Ht.
  rewrite (luj_column_rows table "L" _ (fun luj => fst (fst luj)) rows),
    (luj_column_rows table "U" _ (fun luj => snd (fst luj)) rows),
    (luj_column_rows table "J" _ snd rows); [reflexivity| | |];
    (eapply Forall2_impl; [|exact Hrows]); intros sym luj (row & Hrow & HL & HU & HJ);
    now exists row.
Qed.

Lemma set_ldau_luj_dict_columns_witness :
  set_ldau_luj_dict
    (VDict [("O", VDict [("L", VInt (-1)); ("U", VInt 0); ("J", VInt 0)]);
            ("Fe", VDict [("L", VInt 2); ("U", VInt 4); ("J", VInt 1)])])
    (oxide_calc []) =
    (oxide_calc [],
     Ok [("ldaul", VSeq KList (map (fun luj => fst (fst luj))
                                 [(VInt 2, VInt 4, VInt 1); (VInt (-1), VInt 0, VInt 0)]));
         ("ldauu", VSeq KList (map (fun luj => snd (fst luj))
                                 [(VInt 2, VInt 4, VInt 1); (VInt (-1), VInt 0, VInt 0)]));
         ("ldauj", VSeq KList (map snd
                                 [(VInt 2, VInt 4, VInt 1); (VInt (-1), VInt 0, VInt 0)]))]).
Proof.
  apply (set_ldau_luj_dict_columns (oxide_calc []) _ iron_then_oxygen).
  - reflexivity.
  - reflexivity.
  - repeat constructor; do 2 eexists; repeat split; reflexivity.
Defined.

(** X20: the order of the entries of the table does not matter to
    [set_ldau_luj_dict] either. *)
Theorem set_ldau_luj_dict_ignores_table_order (self : Vasp) (table table' : Dict.t pyval) :
  Dict.wf table = true ->
  Permutation table table' ->
  set_ldau_luj_dict (VDict table') self = set_ldau_luj_dict (VDict table) self.
Proof.
  intros Hwf Hp.
  unfold set_ldau_luj_dict, bind, get_state, lift, ret, modify. cbn.
  destruct (Dict.mem "setups" (parameters self)); [reflexivity|].
  destruct (ppp_list self) as [ppp|]; cbn.
  - destruct (get_ppp_list self) as [l|e]; [|reflexivity].
    destruct (rmap (atom_type self) l) as [types|e]; [|reflexivity].
    now rewrite !(luj_column_perm table table' _ _ Hwf Hp).
  - destruct (rmap (atom_type (sort_atoms self)) (species_order self)) as [types|e];
      [|reflexivity].
    now rewrite !(luj_column_perm table table' _ _ Hwf Hp).
Qed.

Lemma set_ldau_luj_dict_ignores_table_order_witness :
  set_ldau_luj_dict
    (VDict [("Fe", VDict [("L", VInt 2); ("U", VInt 4); ("J", VInt 1)]);
            ("O", VDict [("L", VInt (-1)); ("U", VInt 0); ("J", VInt 0)])])
    (example_calc []) =
  set_ldau_luj_dict
    (VDict [("O", VDict [("L", VInt (-1)); ("U", VInt 0); ("J", VInt 0)]);
            ("Fe", VDict [("L", VInt 2); ("U", VInt 4); ("J", VInt 1)])])
    (example_calc []).
Proof.
  apply (set_ldau_luj_dict_ignores_table_order (example_calc [])).
  - reflexivity.
  - apply perm_swap.
Defined.

(** ** [RWIGS]: what [write_incar] expects and what [set_rwigs_dict] returns *)

Lemma rmap_raises {A B : Type} (f : A -> result B) (before after : list A) (x : A)
  (e : exn) :
  f x = Raise e ->
  exists e', rmap f (before ++ x :: after)%list = Raise e'.
Proof.
  intros He. induction before as [|y before [e' IH]]; cbn.
  - rewrite He. now exists e.
  - destruct (f y) as [b|e'']; [|now exists e'']. rewrite IH. now exists e'.
Qed.

(** X21: the loop body of [write_incar] at a key that reads [RWIGS] in upper
    case and a table with a radius for every species of the list of
    potentials: it appends the one line with the radii in the order of
    the potentials. *)
Theorem write_incar_rwigs_of_a_table (self : Vasp) (k : string) (table : Dict.t pyval)
  (ppp : list ppp_entry) (rs : list pyval) (written : string) :
  Text.upper k = "RWIGS" ->
  ppp_list self = Some ppp ->
  Forall2 (fun x r => exists sym, ppp_key x = SubStr sym /\ Dict.get sym table = Some r)
    ppp rs ->
  write_incar_item self (k, VDict table) written =
    (written ++ Text.line (" RWIGS = " ++ Text.join " " (map py_str rs)), Ok tt).
Proof.
  intros Hk Hp Hall.
  rewrite write_incar_item_run. unfold incar_line. cbn [fst snd is_none].
  rewrite Hk. unfold incar_value. cbn [String.eqb Ascii.eqb Bool.eqb].
  unfold get_ppp_list. rewrite Hp. cbn.
  rewrite (rmap_Forall2 _ ppp (map py_str rs)); [reflexivity|].
  clear Hp. induction Hall as [|x r ppp' rs' (sym & Hx & Hr) _ IH]; cbn; constructor.
  - rewrite Hx. cbn. now rewrite Hr.
  - exact IH.
Qed.

Lemma write_incar_rwigs_of_a_table_witness :
  write_incar_item (oxide_calc [])
    ("Rwigs", VDict [("O", VInt 1); ("Fe", VInt 2)]) incar_comment =
    (incar_comment ++ Text.line (" RWIGS = " ++ Text.join " " (map py_str [VInt 2; VInt 1])),
     Ok tt).
Proof.
  apply (write_incar_rwigs_of_a_table (oxide_calc []) "Rwigs"
           [("O", VInt 1); ("Fe", VInt 2)] iron_then_oxygen).
  - reflexivity.
  - reflexivity.
  - repeat constructor; eexists; split; reflexivity.
Defined.

(** X22: what [set_rwigs_dict] returns for a table cannot be written: once
    the store holds that list under [rwigs], with a species symbol as
    the key of the first potential, [write_incar] ends in an error,
    because it subscripts the list with the symbol. *)
Theorem write_incar_refuses_the_rwigs_list (rank : string -> nat) (self : Vasp)
  (val : pyval) (d : Dict.t pyval) (x : ppp_entry) (rest : list ppp_entry) (sym : string)
  (incar : option string) (fs : files) :
  is_none val = false ->
  set_rwigs_dict self val = Ok d ->
  ppp_list self = Some (x :: rest) ->
  ppp_key x = SubStr sym ->
  existsb (String.eqb "rwigs") (special_kwargs self) = false ->
  exists e,
    snd (write_incar rank (with_parameters self (Dict.update (parameters self) d)) incar fs)
      = Raise e.
Proof.
  intros Hn Hd Hp Hx Hsp.
  unfold set_rwigs_dict, get_ppp_list in Hd. rewrite Hn, Hp in Hd. cbn in Hd.
  destruct (py_getitem val (ppp_key x)) as [r|e]; [|discriminate]. cbn in Hd.
  destruct (rmap (fun x0 => py_getitem val (ppp_key x0)) rest) as [rs|e]; [|discriminate].
  injection Hd as <-. cbn [Dict.update].
  set (self' := with_parameters self _).
  assert (Hget : Dict.get "rwigs" (parameters self') = Some (VSeq KList (r :: rs))).
  { apply get_set_eq. }
  destruct (incar_items_once rank self' "rwigs" _ Hget Hsp) as (before & after & Hi & _).
  assert (Hline : incar_line self' ("rwigs", VSeq KList (r :: rs)) =
                  Raise (TypeError "list indices must be integers")).
  { unfold incar_line, incar_value, get_ppp_list. cbn. rewrite Hp. cbn. now rewrite Hx. }
  destruct (rmap_raises (incar_line self') before after _ _ Hline) as [e He].
  exists e. rewrite write_incar_run. simpl snd.
  unfold bind at 1. rewrite f_write_run. apply write_incar_items_raise.
  now rewrite Hi.
Qed.

Lemma write_incar_refuses_the_rwigs_list_witness :
  exists e,
    snd (write_incar String.length
           (with_parameters (oxide_calc [("encut", VInt 400)])
              (Dict.update (parameters (oxide_calc [("encut", VInt 400)]))
                 [("rwigs", VSeq KList [VInt 2; VInt 1])]))
           None []) = Raise e.
Proof.
  apply (write_incar_refuses_the_rwigs_list String.length
           (oxide_calc [("encut", VInt 400)])
           (VDict [("O", VInt 1); ("Fe", VInt 2)])
           [("rwigs", VSeq KList [VInt 2; VInt 1])]
           {| ppp_key := SubStr "Fe"; ppp_file := "potpaw_PBE/Fe/POTCAR"; ppp_count := 1 |}
           [{| ppp_key := SubStr "O"; ppp_file := "potpaw_PBE/O/POTCAR"; ppp_count := 2 |}]
           "Fe" None []); reflexivity.
Defined.
